(** * Product import / export batch-job strategies

    A shallow embedding of the product import strategy
    ([ProductImportStrategy], its CSV schema reducers and its Redis staging)
    and of the product export strategy ([ProductExportStrategy]), together
    with the properties the specification states about them. *)

From Stdlib Require Import ZArith List String Ascii Lia Bool Permutation.
From stdpp Require Import base decidable option list gmap strings pretty.
Import ListNotations.

Local Open Scope string_scope.
Local Open Scope list_scope.

(** ** JavaScript values as the strategies use them *)

Module Js.

(** A JS object with string-valued properties, in insertion order.  A
    property whose value is [undefined] is modelled as absent: the code
    only reads properties ([o.k], truthiness, [JSON.stringify]), and all of
    these treat the two alike. *)
Definition obj := list (string * string).

Fixpoint prop (k : string) (o : obj) : option string :=
  match o with
  | [] => None
  | (k', v) :: o' => if decide (k' = k) then Some v else prop k o'
  end.

(** [o[k] = v]: an existing property keeps its position. *)
Fixpoint set_prop (k : string) (v : string) (o : obj) : obj :=
  match o with
  | [] => [(k, v)]
  | (k', v') :: o' =>
      if decide (k' = k) then (k, v) :: o' else (k', v') :: set_prop k v o'
  end.

(** [o[k] = v] where [v] may be [undefined]. *)
Definition set_prop_opt (k : string) (v : option string) (o : obj) : obj :=
  match v with
  | Some s => set_prop k s o
  | None => filter (fun kv => kv.1 ≠ k) o
  end.

(** Elements of the arrays found in a parsed row. *)
Inductive elem :=
| EStr (s : string)
| EObj (o : obj).

(** The values a parsed row holds: the CSV parser yields strings, the
    reducers arrays, and the classifier stamps an object. *)
Inductive value :=
| VStr (s : string)
| VObj (o : obj)
| VArr (l : list elem).

#[global] Instance elem_eq_dec : EqDecision elem.
Proof. solve_decision. Defined.
#[global] Instance value_eq_dec : EqDecision value.
Proof. solve_decision. Defined.

(** Truthiness: [undefined] and the empty string are falsy; non-empty
    strings, objects and arrays are truthy. *)
Definition truthy_str (s : string) : bool := negb (bool_decide (s = "")).

Definition truthy_opt (s : option string) : bool :=
  match s with Some s => truthy_str s | None => false end.

Definition truthy (v : option value) : bool :=
  match v with
  | None => false
  | Some (VStr s) => truthy_str s
  | Some (VObj _) | Some (VArr _) => true
  end.

(** [p.k] on an array element: a primitive string has none of the
    properties the code reads. *)
Definition elem_prop (k : string) (e : elem) : option string :=
  match e with
  | EObj o => prop k o
  | EStr _ => None
  end.

(** [String(v)], as used for property keys and in template literals. *)
Definition elem_to_string (e : elem) : string :=
  match e with
  | EStr s => s
  | EObj _ => "[object Object]"
  end.

Fixpoint join (sep : string) (l : list string) : string :=
  match l with
  | [] => ""
  | [s] => s
  | s :: l' => s +:+ sep +:+ join sep l'
  end.

Definition to_string (v : option value) : string :=
  match v with
  | None => "undefined"
  | Some (VStr s) => s
  | Some (VObj _) => "[object Object]"
  | Some (VArr l) => join "," (map elem_to_string l)
  end.

(** [s.startsWith(p)] *)
Fixpoint starts_with (p s : string) : bool :=
  match p, s with
  | EmptyString, _ => true
  | String a p', String b s' => bool_decide (a = b) && starts_with p' s'
  | String _ _, EmptyString => false
  end.

(** The head of the result is the segment under construction. *)
Definition cons_head (c : ascii) (l : list string) : list string :=
  match l with
  | [] => [String c ""]
  | h :: t => String c h :: t
  end.

(** [s.split(sep)] for a non-empty separator; [skip] counts the characters
    of a separator occurrence still to be consumed. *)
Fixpoint split_go (sep : string) (skip : nat) (s : string) : list string :=
  match s with
  | EmptyString => [""]
  | String c r =>
      match skip with
      | S k => split_go sep k r
      | O =>
          if starts_with sep s
          then "" :: split_go sep (String.length sep - 1) r
          else cons_head c (split_go sep 0 r)
      end
  end.

Definition split (sep s : string) : list string := split_go sep 0 s.

(** [re.test(s)] for a regular expression that is a literal text. *)
Fixpoint includes (p s : string) : bool :=
  starts_with p s ||
  match s with
  | EmptyString => false
  | String _ r => includes p r
  end.

(** The property names every object literal inherits from
    [Object.prototype]; each is bound to a function or an object, hence
    truthy. *)
Definition object_prototype_keys : list string :=
  [ "constructor"; "__defineGetter__"; "__defineSetter__"; "hasOwnProperty";
    "__lookupGetter__"; "__lookupSetter__"; "isPrototypeOf";
    "propertyIsEnumerable"; "toString"; "valueOf"; "__proto__";
    "toLocaleString" ].

Definition inherited (k : string) : bool :=
  bool_decide (k ∈ object_prototype_keys).

End Js.

Import Js.

(** ** Errors *)

Inductive error :=
| TypeError
| INVALID_DATA (message : string).

Inductive result (A : Type) :=
| Ok (a : A)
| Throw (e : error).
Arguments Ok {A} a.
Arguments Throw {A} e.

#[global] Instance result_ret : MRet result := fun A a => Ok a.
#[global] Instance result_bind : MBind result := fun A B f m =>
  match m with
  | Ok a => f a
  | Throw e => Throw e
  end.

(** ** The import strategy *)

Module ProductImport.

(** [TParsedRowData]: a parsed CSV row, keyed by dot-path. *)
Definition Row := list (string * value).

Fixpoint row_get (k : string) (row : Row) : option value :=
  match row with
  | [] => None
  | (k', v) :: row' => if decide (k' = k) then Some v else row_get k row'
  end.

Fixpoint row_set (k : string) (v : value) (row : Row) : Row :=
  match row with
  | [] => [(k, v)]
  | (k', v') :: row' =>
      if decide (k' = k) then (k, v) :: row' else (k', v') :: row_set k v row'
  end.

Definition row_set_opt (k : string) (v : option value) (row : Row) : Row :=
  match v with
  | Some v => row_set k v row
  | None => filter (fun kv => kv.1 ≠ k) row
  end.

Inductive OperationType :=
| ProductCreate
| ProductUpdate
| VariantCreate
| VariantUpdate.

#[global] Instance OperationType_eq_dec : EqDecision OperationType.
Proof. solve_decision. Defined.

Definition op_tag (op : OperationType) : string :=
  match op with
  | ProductCreate => "PRODUCT_CREATE"
  | ProductUpdate => "PRODUCT_UPDATE"
  | VariantCreate => "VARIANT_CREATE"
  | VariantUpdate => "VARIANT_UPDATE"
  end.

Definition BATCH_SIZE : nat := 100.

(** A region as the region repository returns it. *)
Record Region := { region_id : string }.

(** [v.length] followed by a truthiness test; reading a property of
    [undefined] throws. *)
Definition length_truthy (v : option value) : result bool :=
  match v with
  | None => Throw TypeError
  | Some (VStr s) => Ok (truthy_str s)
  | Some (VArr l) => Ok (negb (bool_decide (l = [])))
  | Some (VObj o) => Ok (truthy_opt (prop "length" o))
  end.

Fixpoint chars (s : string) : list elem :=
  match s with
  | EmptyString => []
  | String c r => EStr (String c "") :: chars r
  end.

(** The sequence a [for ... of] loop runs over. *)
Definition iterate (v : option value) : result (list elem) :=
  match v with
  | Some (VArr l) => Ok l
  | Some (VStr s) => Ok (chars s)
  | Some (VObj _) | None => Throw TypeError
  end.

Section Classifier.

(** [regionRepo.findOne({ where: { name } })] *)
Variable findOne : string -> option Region.

(** [shippingProfileService_.retrieveDefault()] *)
Variable shippingProfile : value.

(** The body of the loop of [handleVariantPrices]. *)
Definition price_record (p : elem) : result obj :=
  let record := set_prop_opt "amount" (elem_prop "amount" p) [] in
  match elem_prop "regionName" p with
  | Some name =>
      if truthy_str name then
        match findOne name with
        | None =>
            Throw (INVALID_DATA
              ("Trying to set a price for a region " +:+ name +:+
               " that doesn't exist"))
        | Some region => Ok (set_prop "region_id" (region_id region) record)
        end
      else Ok (set_prop_opt "currency_code" (elem_prop "currency_code" p) record)
  | None => Ok (set_prop_opt "currency_code" (elem_prop "currency_code" p) record)
  end.

Fixpoint price_records (ps : list elem) : result (list obj) :=
  match ps with
  | [] => Ok []
  | p :: ps' =>
      record ← price_record p;
      prices ← price_records ps';
      Ok (record :: prices)
  end.

Definition handleVariantPrices (row : Row) : result Row :=
  ps ← iterate (row_get "variant.prices" row);
  prices ← price_records ps;
  Ok (row_set "variant.prices" (VArr (map EObj prices)) row).

(** The locals of [getImportInstructions].  [seenProducts] is an object
    literal used as a set: its own keys are [seen], and a lookup also
    finds what it inherits. *)
Record Instructions := {
  productsCreate : list Row;
  productsUpdate : list Row;
  variantsCreate : list Row;
  variantsUpdate : list Row
}.

Record locals := {
  seenProducts : gset string;
  ops : Instructions
}.

Definition seen_lookup (k : string) (seen : gset string) : bool :=
  inherited k || bool_decide (k ∈ seen).

(** [seenProducts[k] = true]; assigning a primitive to [__proto__] is
    ignored. *)
Definition seen_mark (k : string) (seen : gset string) : gset string :=
  if decide (k = "__proto__") then seen else {[k]} ∪ seen.

(** One iteration of the loop.  The row object pushed onto the variant
    batch is the one stamped afterwards, so both batches hold the stamped
    row. *)
Definition classify_row (st : locals) (row : Row) : result locals :=
  has_prices ← length_truthy (row_get "variant.prices" row);
  row1 ← (if has_prices : bool then handleVariantPrices row else Ok row);
  let handle := to_string (row_get "product.handle" row1) in
  let first := negb (seen_lookup handle (seenProducts st)) in
  let row2 :=
    if first then row_set "product.profile_id" shippingProfile row1 else row1 in
  let o := ops st in
  let o1 :=
    if truthy (row_get "variant.id" row1)
    then {| productsCreate := productsCreate o;
            productsUpdate := productsUpdate o;
            variantsCreate := variantsCreate o;
            variantsUpdate := variantsUpdate o ++ [row2] |}
    else {| productsCreate := productsCreate o;
            productsUpdate := productsUpdate o;
            variantsCreate := variantsCreate o ++ [row2];
            variantsUpdate := variantsUpdate o |} in
  if first then
    let o2 :=
      if truthy (row_get "product.product.id" row2)
      then {| productsCreate := productsCreate o1;
              productsUpdate := productsUpdate o1 ++ [row2];
              variantsCreate := variantsCreate o1;
              variantsUpdate := variantsUpdate o1 |}
      else {| productsCreate := productsCreate o1 ++ [row2];
              productsUpdate := productsUpdate o1;
              variantsCreate := variantsCreate o1;
              variantsUpdate := variantsUpdate o1 |} in
    Ok {| seenProducts := seen_mark handle (seenProducts st); ops := o2 |}
  else Ok {| seenProducts := seenProducts st; ops := o1 |}.

Fixpoint classify_rows (st : locals) (csvData : list Row) : result locals :=
  match csvData with
  | [] => Ok st
  | row :: rest => st' ← classify_row st row; classify_rows st' rest
  end.

Definition getImportInstructions (csvData : list Row) : result Instructions :=
  st ← classify_rows {| seenProducts := ∅;
                        ops := {| productsCreate := []; productsUpdate := [];
                                  variantsCreate := []; variantsUpdate := [] |} |}
                     csvData;
  Ok (ops st).

End Classifier.

(** *** CSV schema reducers for the dynamic price columns *)

(** [builtLine[k] = builtLine[k] || []] *)
Definition init_array (k : string) (builtLine : Row) : Row :=
  if truthy (row_get k builtLine) then builtLine else row_set k (VArr []) builtLine.

(** [builtLine[k].push(e)]; only an array has [push]. *)
Definition push (k : string) (e : elem) (builtLine : Row) : result Row :=
  match row_get k builtLine with
  | Some (VArr l) => Ok (row_set k (VArr (l ++ [e])) builtLine)
  | _ => Throw TypeError
  end.

(** The reducer of the schema column [Price Region], matched by
    [/Price .* \[([A-Z]{2,4})\]/].  [value] is [None] when the cell is
    [undefined] or [null]. *)
Definition reducer_PriceRegion
    (builtLine : Row) (key : string) (value : option string) : result Row :=
  let builtLine := init_array "variant.prices" builtLine in
  match value with
  | None => Ok builtLine
  | Some v =>
      let regionName := split " " key !! 1%nat in
      push "variant.prices"
           (EObj (set_prop_opt "regionName" regionName [("amount", v)]))
           builtLine
  end.


(** *** Staging in Redis *)

(** A Redis string key: the staged batch and the time at which it expires.
    The payload is kept as the batch itself: [JSON.parse (JSON.stringify x)]
    is [x] on rows made of strings, arrays and objects of strings. *)
Record entry := {
  payload : list Row;
  expires_at : nat
}.

Definition staging_key (batchJobId : string) (op : OperationType) : string :=
  "pij_" +:+ batchJobId +:+ ":" +:+ op_tag op.

Definition batch (op : OperationType) (results : Instructions) : list Row :=
  match op with
  | ProductCreate => productsCreate results
  | ProductUpdate => productsUpdate results
  | VariantCreate => variantsCreate results
  | VariantUpdate => variantsUpdate results
  end.

(** [redisClient_.set(key, json, "EX", 60 * 60)] at time [now]. *)
Definition redis_set
    (now : nat) (key : string) (rows : list Row) (store : gmap string entry)
    : gmap string entry :=
  <[key := {| payload := rows; expires_at := now + 60 * 60 |}]> store.

(** [redisClient_.get(key)]: an expired key reads as absent. *)
Definition redis_get
    (now : nat) (key : string) (store : gmap string entry) : option (list Row) :=
  match store !! key with
  | Some e => if decide (now < expires_at e) then Some (payload e) else None
  | None => None
  end.

(** [redisClient_.del(key)]: DEL removes the key with exactly that name and
    answers the number of keys removed. *)
Definition redis_del
    (now : nat) (key : string) (store : gmap string entry)
    : gmap string entry * nat :=
  (delete key store,
   match redis_get now key store with Some _ => 1 | None => 0 end).

(** The keys of the object [getImportInstructions] returns, in their
    order. *)
Definition results_keys : list OperationType :=
  [ProductCreate; VariantCreate; ProductUpdate; VariantUpdate].

Definition setImportDataToRedis
    (now : nat) (batchJobId : string) (results : Instructions)
    (store : gmap string entry) : gmap string entry :=
  fold_left
    (fun store op =>
       match batch op results with
       | [] => store
       | rows => redis_set now (staging_key batchJobId op) rows store
       end)
    results_keys store.

Definition getImportDataFromRedis
    (now : nat) (batchJobId : string) (op : OperationType)
    (store : gmap string entry) : list Row :=
  match redis_get now (staging_key batchJobId op) store with
  | Some rows => rows
  | None => []
  end.

Definition clearRedisRecords
    (now : nat) (batchJobId : string) (store : gmap string entry)
    : gmap string entry * nat :=
  redis_del now ("pij_" +:+ batchJobId +:+ ":*") store.

(** *** Row transformations *)

(** Both regular expressions the strategy passes, [/product\./] and
    [/variant\./], are literal texts: [regex.test(k)] holds when [k] contains
    [fragment]. *)
Definition pickObjectPropsByRegex (data : Row) (fragment : string) : Row :=
  filter (fun kv => includes fragment kv.1 = true) data.

(** [k.split(prefix)[1]] as a property key. *)
Definition strip_prefix (prefix k : string) : string :=
  match split prefix k !! 1%nat with
  | Some key => key
  | None => "undefined"
  end.

Definition transformProductData (data : Row) : Row :=
  let productData := pickObjectPropsByRegex data "product." in
  fold_left
    (fun ret kv => row_set (strip_prefix "product." kv.1) kv.2 ret)
    productData [].

Definition transformVariantData (data : Row) : Row :=
  let productData := pickObjectPropsByRegex data "variant." in
  let ret :=
    fold_left
      (fun ret kv => row_set (strip_prefix "variant." kv.1) kv.2 ret)
      productData [] in
  let ret := row_set_opt "product.handle" (row_get "product.handle" data) ret in
  row_set_opt "product.options" (row_get "product.options" data) ret.

(** *** The applier *)

Record ProductOption := {
  option_title : string;
  option_id : string
}.

Record Product := {
  product_id : string;
  product_options : list ProductOption
}.

(** The entity services and repositories the applier calls, over a store
    [W].  A service answers [None] when it throws. *)
Record Services (W : Type) := {
  productService_create : Row -> W -> option W;
  productService_update : option value -> Row -> W -> option W;
  productRepo_findOne : option value -> W -> option Product;
  productVariantService_create : option Product -> Row -> W -> option W;
  productVariantService_update : option value -> Row -> W -> option W;
  productOptionRepo_findOne : option string -> W -> option ProductOption
}.
Arguments productService_create {W} _ _ _.
Arguments productService_update {W} _ _ _ _.
Arguments productRepo_findOne {W} _ _ _.
Arguments productVariantService_create {W} _ _ _ _.
Arguments productVariantService_update {W} _ _ _ _.
Arguments productOptionRepo_findOne {W} _ _ _.

Record ImportJobContext := {
  total : option nat;
  progress : option nat;
  fileKey : string
}.

(** Modelled from the spec: [batchJobService_.update] with a [context] that
    holds only [progress]; the batch-job store is an external collaborator,
    and its update merges the given fields into the stored context. *)
Definition update_progress (p : option nat) (c : ImportJobContext) : ImportJobContext :=
  {| total := total c; progress := p; fileKey := fileKey c |}.

(** The state the commit phases act on: the entity store, the strategy's
    [processedCounter], the job context, the progress values written to it
    (oldest first) and the rows whose processing was started. *)
Record state (W : Type) := {
  world : W;
  processedCounter : nat;
  context : ImportJobContext;
  progress_writes : list (option nat);
  started : list (OperationType * Row)
}.
Arguments world {W} _.
Arguments processedCounter {W} _.
Arguments context {W} _.
Arguments progress_writes {W} _.
Arguments started {W} _.

(** The outcome of a phase: it returns, or it throws out of the atomic
    phase, leaving the state reached when the error was raised. *)
Inductive outcome (W : Type) :=
| Done (st : state W)
| Failed (e : error) (st : state W).
Arguments Done {W} st.
Arguments Failed {W} e st.

Definition newline : string := String (ascii_of_nat 10) "".

Definition diagnostic (row : Row) : string :=
  "Error while processing row with:" +:+ newline +:+
  "      product id: " +:+ to_string (row_get "product.id" row) +:+ "," +:+ newline +:+
  "      product handle: " +:+ to_string (row_get "product.handle" row) +:+ "," +:+ newline +:+
  "      variant id: " +:+ to_string (row_get "variant.id" row) +:+ newline +:+
  "      variant sku: " +:+ to_string (row_get "variant.sku" row).

Definition handleImportError_ (row : Row) : error :=
  INVALID_DATA (diagnostic row).

Section Applier.

Context {W : Type}.
Variable svc : Services W.

Definition set_world (w : W) (st : state W) : state W :=
  {| world := w; processedCounter := processedCounter st;
     context := context st; progress_writes := progress_writes st;
     started := started st |}.

Definition start (op : OperationType) (row : Row) (st : state W) : state W :=
  {| world := world st; processedCounter := processedCounter st;
     context := context st; progress_writes := progress_writes st;
     started := started st ++ [(op, row)] |}.

Definition updateProgress_ (st : state W) : state W :=
  let counter := S (processedCounter st) in
  if decide (counter mod BATCH_SIZE ≠ 0) then
    {| world := world st; processedCounter := counter;
       context := context st; progress_writes := progress_writes st;
       started := started st |}
  else
    {| world := world st; processedCounter := counter;
       context := update_progress (Some counter) (context st);
       progress_writes := progress_writes st ++ [Some counter];
       started := started st |}.

Definition finalize_ (st : state W) : state W :=
  let batchJob_total := total (context st) in
  {| world := world st; processedCounter := processedCounter st;
     context := update_progress batchJob_total (context st);
     progress_writes := progress_writes st ++ [batchJob_total];
     started := started st |}.

Fixpoint createProducts_loop (productOps : list Row) (st : state W) : outcome W :=
  match productOps with
  | [] => Done st
  | productOp :: rest =>
      let st := start ProductCreate productOp st in
      match productService_create svc (transformProductData productOp) (world st) with
      | None => Failed (handleImportError_ productOp) st
      | Some w => createProducts_loop rest (updateProgress_ (set_world w st))
      end
  end.

Fixpoint updateProducts_loop (productOps : list Row) (st : state W) : outcome W :=
  match productOps with
  | [] => Done st
  | productOp :: rest =>
      let st := start ProductUpdate productOp st in
      match productService_update svc (row_get "product.id" productOp)
                                  (transformProductData productOp) (world st) with
      | None => Failed (handleImportError_ productOp) st
      | Some w => updateProducts_loop rest (updateProgress_ (set_world w st))
      end
  end.

(** [variantOp["product.options"]?.map(...) || []] of [createVariants]:
    the identifier of the created product option titled like each parsed
    option.  [None] when the expression throws. *)
Definition option_ids (product : option Product) (v : option value)
    : option (list string) :=
  match v with
  | None => Some []
  | Some (VArr l) =>
      mapM (fun variantOption =>
              product ← product;
              created ← List.find
                (fun createdProductOption =>
                   bool_decide (Some (option_title createdProductOption)
                                = elem_prop "title" variantOption))
                (product_options product);
              Some (option_id created)) l
  | Some (VStr _) | Some (VObj _) => None
  end.

(** [{...o}]: spreading a primitive string yields its characters under
    their indices. *)
Fixpoint char_props (i : nat) (s : string) : obj :=
  match s with
  | EmptyString => []
  | String c r => (pretty i, String c "") :: char_props (S i) r
  end.

Definition spread (o : elem) : obj :=
  match o with
  | EObj o => o
  | EStr s => char_props 0 s
  end.

(** [(variant.options)?.map((o, index) => ({ ...o, option_id:
    optionIds[index] })) || []] *)
Definition with_option_ids (optionIds : list string) (v : option value)
    : option value :=
  match v with
  | None => Some (VArr [])
  | Some (VArr l) =>
      Some (VArr (imap (fun index o =>
                    EObj (set_prop_opt "option_id" (optionIds !! index) (spread o)))
                  l))
  | Some (VStr _) | Some (VObj _) => None
  end.

(** The body of the [try] block of [createVariants]; [None] when it
    throws. *)
Definition createVariants_try (variantOp : Row) (st : state W) : option (state W) :=
  let variant := transformVariantData variantOp in
  let product :=
    productRepo_findOne svc (row_get "product.handle" variantOp) (world st) in
  optionIds ← option_ids product (row_get "product.options" variantOp);
  options ← with_option_ids optionIds (row_get "options" variant);
  let variant := row_set "options" options variant in
  w ← productVariantService_create svc product variant (world st);
  Some (updateProgress_ (set_world w st)).

Fixpoint createVariants_loop (variantOps : list Row) (st : state W) : outcome W :=
  match variantOps with
  | [] => Done st
  | variantOp :: rest =>
      let st := start VariantCreate variantOp st in
      match createVariants_try variantOp st with
      | None => Failed (handleImportError_ variantOp) st
      | Some st' => createVariants_loop rest st'
      end
  end.

(** [prepareVariantOptions]: every parsed option value receives the
    identifier of the product option of its title.  Destructuring a lookup
    that found nothing throws, and so does assigning a property to a
    primitive string; an object is not iterable. *)
Definition prepareVariantOptions (variantOp : Row) (w : W) : option Row :=
  if truthy (row_get "variant.options" variantOp) then
    match row_get "variant.options" variantOp with
    | Some (VArr l) =>
        l' ← mapM (fun o =>
                     match o with
                     | EObj o =>
                         found ← productOptionRepo_findOne svc (prop "_title" o) w;
                         Some (EObj (set_prop "option_id" (option_id found) o))
                     | EStr _ => None
                     end) l;
        Some (row_set "variant.options" (VArr l') variantOp)
    | Some (VStr _) | Some (VObj _) | None => None
    end
  else Some variantOp.

Definition updateVariants_try (variantOp : Row) (st : state W) : option (state W) :=
  variantOp' ← prepareVariantOptions variantOp (world st);
  w ← productVariantService_update svc (row_get "variant.id" variantOp')
        (transformVariantData variantOp') (world st);
  Some (set_world w st).

Fixpoint updateVariants_loop (variantOps : list Row) (st : state W) : outcome W :=
  match variantOps with
  | [] => Done st
  | variantOp :: rest =>
      let st := start VariantUpdate variantOp st in
      match updateVariants_try variantOp st with
      | None => Failed (handleImportError_ variantOp) st
      | Some st' => updateVariants_loop rest (updateProgress_ st')
      end
  end.

(** The staging store as the job finds it: [now op] is the time at which
    the phase of [op] reads its batch. *)
Variable now : OperationType -> nat.
Variable batchJobId : string.
Variable store : gmap string entry.

Definition staged (op : OperationType) : list Row :=
  getImportDataFromRedis (now op) batchJobId op store.

Definition createProducts (st : state W) : outcome W :=
  createProducts_loop (staged ProductCreate) st.

Definition updateProducts (st : state W) : outcome W :=
  updateProducts_loop (staged ProductUpdate) st.

Definition createVariants (st : state W) : outcome W :=
  createVariants_loop (staged VariantCreate) st.

Definition updateVariants (st : state W) : outcome W :=
  updateVariants_loop (staged VariantUpdate) st.

(** Sequencing inside the atomic phase: an error ends it. *)
Definition and_then (o : outcome W) (k : state W -> outcome W) : outcome W :=
  match o with
  | Done st => k st
  | Failed e st => Failed e st
  end.

Definition processJob (st : state W) : outcome W :=
  and_then (createProducts st) (fun st =>
  and_then (updateProducts st) (fun st =>
  and_then (createVariants st) (fun st =>
  and_then (updateVariants st) (fun st =>
  Done (finalize_ st))))).

End Applier.

(** *** The other schema columns *)

(** The reducer of the schema column [Option Name], matched by
    [/Option \d+ Name/]. *)
Definition reducer_OptionName
    (builtLine : Row) (key : string) (value : option string) : result Row :=
  let builtLine := init_array "product.options" builtLine in
  match value with
  | None => Ok builtLine
  | Some v => push "product.options" (EObj [("title", v)]) builtLine
  end.



(** The reducer of the schema column [Image Url], matched by
    [/Image \d+ Url/]. *)
Definition reducer_ImageUrl
    (builtLine : Row) (key : string) (value : option string) : result Row :=
  let builtLine := init_array "product.images" builtLine in
  match value with
  | None => Ok builtLine
  | Some v => push "product.images" (EStr v) builtLine
  end.

(** The [transform] of the schema column [Product Tags]. *)
Definition transform_ProductTags (value : string) : Js.value :=
  VArr (map (fun v => EObj [("value", v)]) (split "," value)).

(** *** Pre-processing, from the parsed rows on *)

(** [Object.keys(ops).reduce((acc, k) => acc + ops[k].length, 0)] *)
Definition ops_total (ops : Instructions) : nat :=
  fold_left (fun acc k => acc + length (batch k ops)) results_keys 0.

(** [preProcessBatchJob] after [csvParser_.buildData]: [results] are the
    parsed rows; the outcome is the staging store and the [total] written to
    the job context. *)
Definition preProcessBatchJob
    (findOne : string -> option Region) (shippingProfile : Js.value)
    (now : nat) (batchJobId : string) (results : list Row)
    (store : gmap string entry) : result (gmap string entry * nat) :=
  ops ← getImportInstructions findOne shippingProfile results;
  Ok (setImportDataToRedis now batchJobId ops store, ops_total ops).

End ProductImport.

(** ** The export strategy *)

Module ProductExport.

(** *** Entities, as the listing service returns them

    The relations the export loads ([options], [images], [variants],
    [variants.prices], [variants.options]) are arrays; of the scalar columns
    only [handle] and [sku] are kept. *)

Record Region := {
  region_name : string;
  region_id : string;
  region_currency_code : option string
}.

Record MoneyAmount := {
  currency_code : option string;
  region : option Region;
  amount : Z
}.

Record ProductOptionValue := { value : string }.

Record ProductVariant := {
  sku : string;
  variant_options : list ProductOptionValue;
  prices : list MoneyAmount
}.

Record ProductOption := { title : string }.

Record Image := { url : string }.

Record Product := {
  handle : string;
  options : list ProductOption;
  images : list Image;
  variants : list ProductVariant
}.

(** [ProductExportPriceData] *)
Record RegionRef := {
  name : string;
  id : string
}.

Record ProductExportPriceData := {
  price_currency_code : option string;
  price_region : option RegionRef
}.

#[global] Instance RegionRef_eq_dec : EqDecision RegionRef.
Proof. solve_decision. Defined.
#[global] Instance ProductExportPriceData_eq_dec : EqDecision ProductExportPriceData.
Proof. solve_decision. Defined.

Record Shape := {
  dynamicImageColumnCount : nat;
  dynamicOptionColumnCount : nat;
  shape_prices : list ProductExportPriceData
}.

Record FindProductConfig := {
  skip : option nat;
  take : option nat
}.

(** [productService_] under the job's [filterable_fields]. *)
Record ProductService := {
  listAndCount : FindProductConfig -> list Product * nat;
  list_ : FindProductConfig -> list Product
}.

Definition BATCH_SIZE : nat := 50.
Definition NEWLINE_ : string := String (ascii_of_nat 13) (String (ascii_of_nat 10) "").
Definition DELIMITER_ : string := ";".

(** *** Shape discovery *)

(** The object [preProcessBatchJob] serialises into [pricesData].  The set
    holds its JSON text; two such objects have the same text exactly when
    they have the same fields. *)
Definition price_data (price : MoneyAmount) : ProductExportPriceData :=
  {| price_currency_code :=
       match currency_code price with
       | Some c => Some c
       | None => r ← region price; region_currency_code r
       end;
     price_region :=
       (fun r => {| name := region_name r; id := region_id r |}) <$> region price |}.

(** [Set.prototype.add]: a set keeps its members in insertion order. *)
Definition set_add (x : ProductExportPriceData) (s : list ProductExportPriceData)
    : list ProductExportPriceData :=
  if decide (x ∈ s) then s else s ++ [x].

(** The locals [dynamicOptionColumnCount], [dynamicImageColumnCount] and
    [pricesData] of [preProcessBatchJob]. *)
Record scan := {
  optionColumnCount : nat;
  imageColumnCount : nat;
  pricesData : list ProductExportPriceData
}.

Definition scan_variant (variant : ProductVariant) (s : list ProductExportPriceData)
    : list ProductExportPriceData :=
  fold_left (fun s price => set_add (price_data price) s) (prices variant) s.

(** The body of [for (const product of products)]. *)
Definition scan_product (acc : scan) (product : Product) : scan :=
  {| optionColumnCount := Nat.max (optionColumnCount acc) (length (options product));
     imageColumnCount := Nat.max (imageColumnCount acc) (length (images product));
     pricesData :=
       fold_left (fun s variant => scan_variant variant s)
                 (variants product) (pricesData acc) |}.

Definition scan_products (acc : scan) (products : list Product) : scan :=
  fold_left scan_product products acc.

Definition scan_start : scan :=
  {| optionColumnCount := 0; imageColumnCount := 0; pricesData := [] |}.

Definition shape_of (acc : scan) : Shape :=
  {| dynamicImageColumnCount := imageColumnCount acc;
     dynamicOptionColumnCount := optionColumnCount acc;
     shape_prices := pricesData acc |}.

Definition or_default (x : option nat) (d : nat) : nat :=
  match x with Some n => n | None => d end.

Section Discoverer.

Variable productService_ : ProductService.
Variable list_config : FindProductConfig.

(** The [while (offset < productCount)] loop; [fuel] bounds the number of
    iterations, and [None] is a loop that has not ended within it. *)
Fixpoint discover_loop
    (fuel : nat) (productCount offset : nat) (products : list Product) (acc : scan)
    : option scan :=
  if decide (offset < productCount) then
    match fuel with
    | O => None
    | S fuel' =>
        let products :=
          match products with
          | [] => list_ productService_
                    {| skip := Some offset; take := Some BATCH_SIZE |}
          | _ => products
          end in
        discover_loop fuel' productCount (offset + length products) []
                      (scan_products acc products)
    end
  else Some acc.

(** The shape [preProcessBatchJob] writes into the job context. *)
Definition preProcessBatchJob (fuel : nat) : option Shape :=
  let offset := or_default (skip list_config) 0 in
  let '(productList, count) := listAndCount productService_ list_config in
  shape_of <$> discover_loop fuel count offset productList scan_start.

End Discoverer.

(** The shape found in a dataset, whatever the pages it arrives in. *)
Definition discoverShape (products : list Product) : Shape :=
  shape_of (scan_products scan_start products).

(** *** Column descriptors and the header *)

(** [toUpperCase] and [toLowerCase] on the ASCII letters; other characters
    are left as they are. *)
Definition upper_char (c : ascii) : ascii :=
  let n := nat_of_ascii c in
  if (97 <=? n)%nat && (n <=? 122)%nat then ascii_of_nat (n - 32) else c.

Definition lower_char (c : ascii) : ascii :=
  let n := nat_of_ascii c in
  if (65 <=? n)%nat && (n <=? 90)%nat then ascii_of_nat (n + 32) else c.

Fixpoint map_chars (f : ascii -> ascii) (s : string) : string :=
  match s with
  | EmptyString => EmptyString
  | String c r => String (f c) (map_chars f r)
  end.

Definition toUpperCase : string -> string := map_chars upper_char.
Definition toLowerCase : string -> string := map_chars lower_char.

(** [ProductExportColumnSchemaDescriptor]: the constructor is the
    [entityName], the argument the [accessor]. *)
Inductive ProductExportColumnSchemaDescriptor :=
| product_column (accessor : Product -> string)
| variant_column (accessor : ProductVariant -> string).

(** [columnDescriptors]: a [Map] keeps its keys in insertion order, and
    [Map.prototype.set] on a key already there replaces the value where it
    stands. *)
Definition Columns := list (string * ProductExportColumnSchemaDescriptor).

Fixpoint columns_set
    (k : string) (d : ProductExportColumnSchemaDescriptor) (columns : Columns)
    : Columns :=
  match columns with
  | [] => [(k, d)]
  | (k', d') :: columns' =>
      if decide (k' = k) then (k, d) :: columns'
      else (k', d') :: columns_set k d columns'
  end.

Definition image_column_name (i : nat) : string :=
  "Image " +:+ pretty (i + 1) +:+ " Url".

Definition option_name_column_name (i : nat) : string :=
  "Option " +:+ pretty (i + 1) +:+ " Name".

Definition option_value_column_name (i : nat) : string :=
  "Option " +:+ pretty (i + 1) +:+ " Value".

Definition appendImagesDescriptors (maxImagesCount : nat) (columns : Columns) : Columns :=
  fold_left
    (fun columns i =>
       columns_set (image_column_name i)
         (product_column (fun product =>
            match images product !! i with Some image => url image | None => "" end))
         columns)
    (seq 0 maxImagesCount) columns.

Definition appendOptionsDescriptors (maxOptionsCount : nat) (columns : Columns) : Columns :=
  fold_left
    (fun columns i =>
       columns_set (option_value_column_name i)
         (variant_column (fun variant =>
            match variant_options variant !! i with Some o => value o | None => "" end))
         (columns_set (option_name_column_name i)
            (product_column (fun productOption =>
               match options productOption !! i with Some o => title o | None => "" end))
            columns))
    (seq 0 maxOptionsCount) columns.

(** [priceData.region?.id ? "(" + priceData.region?.id + ")" : ""] *)
Definition region_suffix (priceData : ProductExportPriceData) : string :=
  match price_region priceData with
  | Some r => if truthy_str (id r) then "(" +:+ id r +:+ ")" else ""
  | None => ""
  end.

Definition currency_column_name (code : string) (priceData : ProductExportPriceData)
    : string :=
  "Price " +:+ toUpperCase code +:+ " " +:+ region_suffix priceData.

Definition region_column_name (r : RegionRef) (priceData : ProductExportPriceData)
    : string :=
  "Price " +:+ toLowerCase (name r) +:+ " " +:+ region_suffix priceData.

(** [variantPrice.region?.name?.toLowerCase() ===
     priceData.region?.name?.toLowerCase() && ...id...] *)
Definition same_region (r : Region) (priceData : ProductExportPriceData) : bool :=
  bool_decide (Some (toLowerCase (region_name r))
               = (fun p => toLowerCase (name p)) <$> price_region priceData)
  && bool_decide (Some (toLowerCase (region_id r))
                  = (fun p => toLowerCase (id p)) <$> price_region priceData).

Definition amount_of (price : option MoneyAmount) : string :=
  match price with
  | Some p => pretty (amount p)
  | None => ""
  end.

Definition currency_accessor (code : string) (priceData : ProductExportPriceData)
    (variant : ProductVariant) : string :=
  amount_of
    (List.find
       (fun variantPrice =>
          let shouldReturnPrice := false in
          let shouldReturnPrice :=
            match currency_code variantPrice with
            | Some c =>
                if truthy_str c then
                  negb (bool_decide (is_Some (price_region priceData)))
                  && bool_decide (toLowerCase c = toLowerCase code)
                else shouldReturnPrice
            | None => shouldReturnPrice
            end in
          match region variantPrice with
          | Some r => same_region r priceData
          | None => shouldReturnPrice
          end)
       (prices variant)).

Definition region_accessor (priceData : ProductExportPriceData)
    (variant : ProductVariant) : string :=
  amount_of
    (List.find
       (fun variantPrice =>
          match region variantPrice with
          | Some r => same_region r priceData
          | None =>
              bool_decide (price_region priceData = None)
          end)
       (prices variant)).

(** The body of the loop of [appendMoneyAmountDescriptors]. *)
Definition append_price (columns : Columns) (priceData : ProductExportPriceData)
    : Columns :=
  let columns :=
    match price_currency_code priceData with
    | Some code =>
        if truthy_str code then
          columns_set (currency_column_name code priceData)
                      (variant_column (currency_accessor code priceData)) columns
        else columns
    | None => columns
    end in
  match price_region priceData with
  | Some r =>
      columns_set (region_column_name r priceData)
                  (variant_column (region_accessor priceData)) columns
  | None => columns
  end.

Definition appendMoneyAmountDescriptors
    (pricesData : list ProductExportPriceData) (columns : Columns) : Columns :=
  fold_left append_price pricesData columns.

(** [buildHeader]: the descriptor map after the three extensions, and the
    header line.  Without a stored shape the prices are [[]] and both loops
    run zero times. *)
Definition extend_columns (shape : option Shape) (columns : Columns) : Columns :=
  let prices := from_option shape_prices [] shape in
  let dynamicImageColumnCount := from_option dynamicImageColumnCount 0 shape in
  let dynamicOptionColumnCount := from_option dynamicOptionColumnCount 0 shape in
  appendImagesDescriptors dynamicImageColumnCount
    (appendOptionsDescriptors dynamicOptionColumnCount
       (appendMoneyAmountDescriptors prices columns)).

Definition buildHeader (shape : option Shape) (columns : Columns) : string * Columns :=
  let columns := extend_columns shape columns in
  (join DELIMITER_ (map fst columns) +:+ NEWLINE_, columns).

Definition buildProductVariantLines (columns : Columns) (product : Product)
    : list string :=
  map (fun variant =>
         join DELIMITER_
           (map (fun c =>
                   match c.2 with
                   | product_column accessor => accessor product
                   | variant_column accessor => accessor variant
                   end) columns)
         +:+ NEWLINE_)
      (variants product).

(** *** The streaming writer *)

Inductive BatchJobStatus :=
| CREATED
| PRE_PROCESSED
| CONFIRMED
| PROCESSING
| COMPLETED
| CANCELED
| FAILED.

#[global] Instance BatchJobStatus_eq_dec : EqDecision BatchJobStatus.
Proof. solve_decision. Defined.

(** The job result; [progress] is the quotient
    [advancement_count / count], kept as its two terms. *)
Record ExportResult := {
  file_key : string;
  count : nat;
  advancement_count : nat;
  progress : nat * nat
}.

Record ProductExportBatchJob := {
  context_list_config : FindProductConfig;
  context_shape : option Shape;
  result : option ExportResult
}.

(** What [processJob] does to the outside, in order. *)
Inductive event :=
| Write (text : string)
| UpdateResult (r : ExportResult)
| End_
| Delete (key : string).

Inductive exit :=
| Completed
| Canceled
| Unfinished.

Record run := {
  events : list event;
  job_result : option ExportResult;
  run_exit : exit
}.

Section Writer.

Variable productService_ : ProductService.

(** The status of the job the store returns from the [n]-th call of
    [update] of this run; cancellation is requested from outside. *)
Variable status_after_update : nat -> BatchJobStatus.

(** The key [getUploadStreamDescriptor] assigns to the output file. *)
Variable fileKey : string.

Variable columns : Columns.

(** The [while (offset < productCount)] loop of [processJob]; [n] counts the
    updates made so far, [current] is the job result as last persisted, and
    [fuel] bounds the number of iterations. *)
Fixpoint write_loop
    (fuel : nat) (productCount limit offset advancementCount n : nat)
    (products : list Product) (current : option ExportResult) : run :=
  if decide (offset < productCount) then
    match fuel with
    | O => {| events := []; job_result := current; run_exit := Unfinished |}
    | S fuel' =>
        let products :=
          match products with
          | [] => list_ productService_ {| skip := Some offset; take := Some limit |}
          | _ => products
          end in
        let lines := flat_map (buildProductVariantLines columns) products in
        let advancementCount := advancementCount + length products in
        let offset := offset + length products in
        let r := {| file_key := fileKey;
                    count := productCount;
                    advancement_count := advancementCount;
                    progress := (advancementCount, productCount) |} in
        if decide (status_after_update n = CANCELED) then
          {| events := map Write lines ++ [UpdateResult r; End_; Delete fileKey];
             job_result := Some r;
             run_exit := Canceled |}
        else
          let rest :=
            write_loop fuel' productCount limit offset advancementCount (S n)
                       [] (Some r) in
          {| events := map Write lines ++ UpdateResult r :: events rest;
             job_result := job_result rest;
             run_exit := run_exit rest |}
    end
  else {| events := [End_]; job_result := current; run_exit := Completed |}.

End Writer.

(** [processJob]: the header is written first, then the pages from the
    advancement already recorded. *)
Definition processJob
    (productService_ : ProductService) (status_after_update : nat -> BatchJobStatus)
    (fileKey : string) (columnDescriptors : Columns)
    (fuel : nat) (batchJob : ProductExportBatchJob) : run :=
  let '(header, columns) := buildHeader (context_shape batchJob) columnDescriptors in
  let advancementCount := from_option advancement_count 0 (result batchJob) in
  let offset := or_default (skip (context_list_config batchJob)) 0 + advancementCount in
  let limit := or_default (take (context_list_config batchJob)) BATCH_SIZE in
  let '(productList, productCount) :=
    listAndCount productService_ {| skip := Some offset; take := Some limit |} in
  let pages :=
    write_loop productService_ status_after_update fileKey columns
               fuel productCount limit offset advancementCount 0
               productList (result batchJob) in
  {| events := Write header :: events pages;
     job_result := job_result pages;
     run_exit := run_exit pages |}.

End ProductExport.

(** ** Vocabulary of the properties *)



(** A resolved price record carries the reference [k] when the property is
    set. *)
Definition carries (k : string) (record : obj) : bool :=
  bool_decide (is_Some (prop k record)).

(** Exactly one of a region identifier and a currency code. *)
Definition one_reference (record : obj) : bool :=
  xorb (carries "region_id" record) (carries "currency_code" record).

(** The parsed price entry names a region, or has a currency code. *)
Definition names_reference (p : elem) : bool :=
  truthy_opt (elem_prop "regionName" p)
  || bool_decide (is_Some (elem_prop "currency_code" p)).

(** *** Sample data *)

Definition sample_findOne (name : string) : option ProductImport.Region :=
  if decide (name = "Denmark")
  then Some {| ProductImport.region_id := "reg_dk" |}
  else None.

Definition sample_profile : value := VObj [("id", "default_shipping_profile")].

(** A row that prices its variant in a region and in a currency. *)
Definition priced_row : ProductImport.Row :=
  [("product.handle", VStr "shirt");
   ("variant.sku", VStr "shirt-s");
   ("variant.prices",
    VArr [EObj [("amount", "100"); ("regionName", "Denmark")];
          EObj [("amount", "110"); ("currency_code", "USD")]])].

Definition priced_row_resolved : ProductImport.Row :=
  [("product.handle", VStr "shirt");
   ("variant.sku", VStr "shirt-s");
   ("variant.prices",
    VArr [EObj [("amount", "100"); ("region_id", "reg_dk")];
          EObj [("amount", "110"); ("currency_code", "USD")]])].

(** The row the Price Region reducer builds from the header
    [Price  [USD]], whose region name is empty. *)
Definition blank_region_row : ProductImport.Row :=
  [("variant.prices", VArr [EObj [("amount", "100"); ("regionName", "")]])].

(** A row of an existing product: the [Product id] column is filled. *)
Definition existing_product_row : ProductImport.Row :=
  [("product.id", VStr "prod_01");
   ("product.handle", VStr "shirt");
   ("variant.sku", VStr "shirt-s");
   ("variant.prices", VArr [])].

(** A row of a product whose handle is [constructor]. *)
Definition constructor_row : ProductImport.Row :=
  [("product.handle", VStr "constructor");
   ("variant.sku", VStr "kit-1");
   ("variant.prices", VArr [])].

Definition stamped (row : ProductImport.Row) : ProductImport.Row :=
  ProductImport.row_set "product.profile_id" sample_profile row.

(** A staging store holding one product-create batch of the job [job_1],
    written at time 0. *)
Definition staged_store : gmap string ProductImport.entry :=
  ProductImport.setImportDataToRedis 0 "job_1"
    {| ProductImport.productsCreate := [stamped existing_product_row];
       ProductImport.productsUpdate := [];
       ProductImport.variantsCreate := [];
       ProductImport.variantsUpdate := [] |}
    ∅.

(** *** The commit phases, row by row *)

(** The staged rows in the order [processJob] takes them, each with the
    phase it belongs to. *)
Definition all_staged
    (now : ProductImport.OperationType -> nat) (batchJobId : string)
    (store : gmap string ProductImport.entry)
    : list (ProductImport.OperationType * ProductImport.Row) :=
  map (pair ProductImport.ProductCreate)
      (ProductImport.staged now batchJobId store ProductImport.ProductCreate)
  ++ map (pair ProductImport.ProductUpdate)
         (ProductImport.staged now batchJobId store ProductImport.ProductUpdate)
  ++ map (pair ProductImport.VariantCreate)
         (ProductImport.staged now batchJobId store ProductImport.VariantCreate)
  ++ map (pair ProductImport.VariantUpdate)
         (ProductImport.staged now batchJobId store ProductImport.VariantUpdate).

(** Processing one row of the phase [op] up to and including its progress
    update; [None] when its [try] block throws. *)
Definition try_row {W : Type} (svc : ProductImport.Services W)
    (op : ProductImport.OperationType) (row : ProductImport.Row)
    (st : ProductImport.state W) : option (ProductImport.state W) :=
  match op with
  | ProductImport.ProductCreate =>
      w ← ProductImport.productService_create svc
             (ProductImport.transformProductData row) (ProductImport.world st);
      Some (ProductImport.updateProgress_ (ProductImport.set_world w st))
  | ProductImport.ProductUpdate =>
      w ← ProductImport.productService_update svc
             (ProductImport.row_get "product.id" row)
             (ProductImport.transformProductData row) (ProductImport.world st);
      Some (ProductImport.updateProgress_ (ProductImport.set_world w st))
  | ProductImport.VariantCreate => ProductImport.createVariants_try svc row st
  | ProductImport.VariantUpdate =>
      ProductImport.updateProgress_ <$> ProductImport.updateVariants_try svc row st
  end.

(** The four loops as one, over rows tagged with their phase. *)
Fixpoint run_rows {W : Type} (svc : ProductImport.Services W)
    (rows : list (ProductImport.OperationType * ProductImport.Row))
    (st : ProductImport.state W) : ProductImport.outcome W :=
  match rows with
  | [] => ProductImport.Done st
  | (op, row) :: rest =>
      let st := ProductImport.start op row st in
      match try_row svc op row st with
      | None => ProductImport.Failed (ProductImport.handleImportError_ row) st
      | Some st' => run_rows svc rest st'
      end
  end.

(** The values of the processed counter, among the [n] that follow [c],
    at which progress is persisted. *)
Definition checkpoints (c n : nat) : list (option nat) :=
  map Some (filter (fun k => k mod ProductImport.BATCH_SIZE = 0) (seq (S c) n)).


Definition rejecting_variants : ProductImport.Services unit :=
  {| ProductImport.productService_create := fun _ w => Some w;
     ProductImport.productService_update := fun _ _ w => Some w;
     ProductImport.productRepo_findOne := fun _ _ =>
       Some {| ProductImport.product_id := "prod_01";
               ProductImport.product_options := [] |};
     ProductImport.productVariantService_create := fun _ _ _ => None;
     ProductImport.productVariantService_update := fun _ _ w => Some w;
     ProductImport.productOptionRepo_findOne := fun _ _ => None |}.

Definition second_row : ProductImport.Row :=
  [("product.handle", VStr "shirt");
   ("variant.sku", VStr "shirt-m");
   ("variant.prices", VArr [])].

(** One product to create and two variants to create, staged at time 0. *)
Definition import_store : gmap string ProductImport.entry :=
  ProductImport.setImportDataToRedis 0 "job_1"
    {| ProductImport.productsCreate := [stamped existing_product_row];
       ProductImport.productsUpdate := [];
       ProductImport.variantsCreate := [stamped existing_product_row; second_row];
       ProductImport.variantsUpdate := [] |}
    ∅.

(** A strategy that has processed 98 rows before this job of 3. *)
Definition import_start : ProductImport.state unit :=
  {| ProductImport.world := tt;
     ProductImport.processedCounter := 98;
     ProductImport.context :=
       {| ProductImport.total := Some 3;
          ProductImport.progress := None;
          ProductImport.fileKey := "csv.key" |};
     ProductImport.progress_writes := [];
     ProductImport.started := [] |}.

(** The state of that job once its product has been created. *)
Definition import_after_product : ProductImport.state unit :=
  {| ProductImport.world := tt;
     ProductImport.processedCounter := 99;
     ProductImport.context :=
       {| ProductImport.total := Some 3;
          ProductImport.progress := None;
          ProductImport.fileKey := "csv.key" |};
     ProductImport.progress_writes := [];
     ProductImport.started :=
       [(ProductImport.ProductCreate, stamped existing_product_row)] |}.

(** *** Export *)

(** The price keys of one product, one per price of each variant. *)
Definition product_price_keys (product : ProductExport.Product)
    : list ProductExport.ProductExportPriceData :=
  flat_map (fun variant => map ProductExport.price_data (ProductExport.prices variant))
           (ProductExport.variants product).

(** The number of job-result updates among some events. *)
Fixpoint count_updates (evs : list ProductExport.event) : nat :=
  match evs with
  | [] => 0
  | ProductExport.UpdateResult _ :: evs' => S (count_updates evs')
  | _ :: evs' => count_updates evs'
  end.

(** A listing service over a fixed dataset: a page is a slice of it, the
    count its size. *)
Definition slice (config : ProductExport.FindProductConfig)
    (dataset : list ProductExport.Product) : list ProductExport.Product :=
  let rest := drop (ProductExport.or_default (ProductExport.skip config) 0) dataset in
  match ProductExport.take config with
  | Some n => take n rest
  | None => rest
  end.

Definition dataset_service (dataset : list ProductExport.Product)
    : ProductExport.ProductService :=
  {| ProductExport.listAndCount := fun config => (slice config dataset, length dataset);
     ProductExport.list_ := fun config => slice config dataset |}.

Definition dkk (n : Z) : ProductExport.MoneyAmount :=
  {| ProductExport.currency_code := Some "dkk";
     ProductExport.region := None;
     ProductExport.amount := n |}.

Definition france : ProductExport.Region :=
  {| ProductExport.region_name := "France";
     ProductExport.region_id := "reg_fr";
     ProductExport.region_currency_code := Some "eur" |}.

Definition in_france (n : Z) : ProductExport.MoneyAmount :=
  {| ProductExport.currency_code := None;
     ProductExport.region := Some france;
     ProductExport.amount := n |}.

Definition shirt : ProductExport.Product :=
  {| ProductExport.handle := "shirt";
     ProductExport.options := [{| ProductExport.title := "Size" |}];
     ProductExport.images := [];
     ProductExport.variants :=
       [{| ProductExport.sku := "shirt-s";
           ProductExport.variant_options := [{| ProductExport.value := "S" |}];
           ProductExport.prices := [dkk 110; in_france 15] |}] |}.

Definition hat : ProductExport.Product :=
  {| ProductExport.handle := "hat";
     ProductExport.options := [];
     ProductExport.images := [{| ProductExport.url := "hat.png" |}];
     ProductExport.variants :=
       [{| ProductExport.sku := "hat-1";
           ProductExport.variant_options := [];
           ProductExport.prices := [dkk 120] |}] |}.

Definition scarf : ProductExport.Product :=
  {| ProductExport.handle := "scarf";
     ProductExport.options := [];
     ProductExport.images := [];
     ProductExport.variants :=
       [{| ProductExport.sku := "scarf-1";
           ProductExport.variant_options := [];
           ProductExport.prices := [] |}] |}.

(** A descriptor map with one product column and one variant column. *)
Definition sample_columns : ProductExport.Columns :=
  [("Product Handle", ProductExport.product_column ProductExport.handle);
   ("Variant SKU", ProductExport.variant_column ProductExport.sku)].

(** An export job over pages of one product, without a stored shape. *)
Definition sample_export_job : ProductExport.ProductExportBatchJob :=
  {| ProductExport.context_list_config :=
       {| ProductExport.skip := None; ProductExport.take := Some 1 |};
     ProductExport.context_shape := None;
     ProductExport.result := None |}.

(** The job is canceled while its second page is written. *)
Definition canceled_at_second (n : nat) : ProductExport.BatchJobStatus :=
  if decide (n = 1) then ProductExport.CANCELED else ProductExport.PROCESSING.

Definition result_after (pages : nat) : ProductExport.ExportResult :=
  {| ProductExport.file_key := "exports/products.csv";
     ProductExport.count := 3;
     ProductExport.advancement_count := pages;
     ProductExport.progress := (pages, 3) |}.

(** The names of the columns [appendMoneyAmountDescriptors] registers for
    one price key: one by currency code when the key has a non-empty one,
    one by region when it has a region. *)
Definition price_column_names (priceData : ProductExport.ProductExportPriceData)
    : list string :=
  match ProductExport.price_currency_code priceData with
  | Some code =>
      if truthy_str code
      then [ProductExport.currency_column_name code priceData]
      else []
  | None => []
  end
  ++ match ProductExport.price_region priceData with
     | Some r => [ProductExport.region_column_name r priceData]
     | None => []
     end.

(** How many they are. *)
Definition price_column_count (priceData : ProductExport.ProductExportPriceData) : nat :=
  (if truthy_opt (ProductExport.price_currency_code priceData) then 1 else 0)
  + match ProductExport.price_region priceData with Some _ => 1 | None => 0 end.

Definition option_column_names (i : nat) : list string :=
  [ProductExport.option_name_column_name i; ProductExport.option_value_column_name i].

Definition image_column_names (i : nat) : list string :=
  [ProductExport.image_column_name i].

(** The names of the dynamic columns of a shape, in the order [buildHeader]
    registers them. *)
Definition dynamic_column_names (shape : ProductExport.Shape) : list string :=
  flat_map price_column_names (ProductExport.shape_prices shape)
  ++ flat_map option_column_names (seq 0 (ProductExport.dynamicOptionColumnCount shape))
  ++ flat_map image_column_names (seq 0 (ProductExport.dynamicImageColumnCount shape)).

(** The price key of a price set in the region France. *)
Definition france_key : ProductExport.ProductExportPriceData :=
  ProductExport.price_data (in_france 15).

Definition france_shape : ProductExport.Shape :=
  {| ProductExport.dynamicImageColumnCount := 0;
     ProductExport.dynamicOptionColumnCount := 0;
     ProductExport.shape_prices := [france_key] |}.

(** The shape discovered in the sample dataset. *)
Definition sample_shape : ProductExport.Shape :=
  ProductExport.discoverShape [shirt; hat; scarf].

(** *** Counting operations by product handle *)

(** The key under which [getImportInstructions] remembers a row. *)
Definition handle_of (row : ProductImport.Row) : string :=
  to_string (ProductImport.row_get "product.handle" row).

Definition count_handle (h : string) (rows : list ProductImport.Row) : nat :=
  length (filter (fun row => handle_of row = h) rows).


(** The state of the loop after the rows [processed]: per handle, the
    variant batches hold one row per processed row, the product batches one
    row if the handle was met and is not an inherited property name, and
    [seenProducts] has the handles met. *)
Definition classified (st : ProductImport.locals) (processed : list ProductImport.Row)
    : Prop :=
  forall h,
    count_handle h (ProductImport.variantsCreate (ProductImport.ops st)) + count_handle h (ProductImport.variantsUpdate (ProductImport.ops st))
    = count_handle h processed
    /\ count_handle h (ProductImport.productsCreate (ProductImport.ops st)) + count_handle h (ProductImport.productsUpdate (ProductImport.ops st))
       = (if inherited h then 0 else Nat.min 1 (count_handle h processed))
    /\ (inherited h = false -> (h ∈ ProductImport.seenProducts st ↔ 0 < count_handle h processed)).


(** Two rows of the product [shirt] and one of the product [constructor]. *)
Definition sample_csvData : list ProductImport.Row :=
  [existing_product_row; constructor_row; second_row].


(** A row of a file without price columns. *)
Definition unpriced_row : ProductImport.Row :=
  [("product.handle", VStr "shirt"); ("variant.sku", VStr "shirt-l")].

(** The classification of [sample_csvData]. *)
Definition sample_ops : ProductImport.Instructions :=
  {| ProductImport.productsCreate := [stamped existing_product_row];
     ProductImport.productsUpdate := [];
     ProductImport.variantsCreate :=
       [stamped existing_product_row; constructor_row; second_row];
     ProductImport.variantsUpdate := [] |}.

(** *** Rows as the schema builds them *)

(** Every key of [data] that contains [fragment] starts with it and does
    not contain it again: the keys the schema maps to, such as
    [product.title] and [variant.sku] for [product.] and [variant.]. *)
Definition prefixed (fragment : string) (data : ProductImport.Row) : Prop :=
  forall k, k ∈ map fst data ->
            includes fragment k = true ->
            exists x, k = fragment +:+ x /\ includes fragment x = false.

(** A row as the schema builds it from a file with product, variant,
    option and price columns. *)
Definition schema_row : ProductImport.Row :=
  [("product.id", VStr "prod_01");
   ("product.handle", VStr "shirt");
   ("product.title", VStr "Shirt");
   ("product.collection.title", VStr "Summer");
   ("variant.sku", VStr "shirt-s");
   ("variant.title", VStr "Small");
   ("product.options", VArr [EObj [("title", "Size")]]);
   ("variant.options", VArr [EObj [("value", "S"); ("_title", "Size")]]);
   ("variant.prices", VArr [EObj [("amount", "110"); ("currency_code", "USD")]])].

(** The texts written to the output stream, in order. *)
Fixpoint written (evs : list ProductExport.event) : list string :=
  match evs with
  | [] => []
  | ProductExport.Write text :: evs' => text :: written evs'
  | _ :: evs' => written evs'
  end.

(** The job result persisted once [advanced] products of [productCount]
    are written. *)
Definition result_at (fileKey : string) (productCount advanced : nat)
    : ProductExport.ExportResult :=
  {| ProductExport.file_key := fileKey;
     ProductExport.count := productCount;
     ProductExport.advancement_count := advanced;
     ProductExport.progress := (advanced, productCount) |}.

(** The names of a descriptor map after [Map.prototype.set] of [k]: a new
    name goes last, a name already there keeps its place. *)
Definition names_set (names : list string) (k : string) : list string :=
  if decide (k ∈ names) then names else names ++ [k].

(** The dynamic column names of the shape stored in a job, if any. *)
Definition shape_column_names (shape : option ProductExport.Shape) : list string :=
  match shape with
  | Some shape => dynamic_column_names shape
  | None => []
  end.

(** A job that is never canceled. *)
Definition always_processing (n : nat) : ProductExport.BatchJobStatus :=
  ProductExport.PROCESSING.


(** An export job resumed after one product, with the discovered shape. *)
Definition resumed_export_job : ProductExport.ProductExportBatchJob :=
  {| ProductExport.context_list_config :=
       {| ProductExport.skip := None; ProductExport.take := Some 1 |};
     ProductExport.context_shape := Some sample_shape;
     ProductExport.result := Some (result_after 1) |}.

(** A stored product with the single option [Size], and entity services
    that know it. *)
Definition size_option : ProductImport.ProductOption :=
  {| ProductImport.option_title := "Size"; ProductImport.option_id := "opt_size" |}.

Definition sized_product : ProductImport.Product :=
  {| ProductImport.product_id := "prod_01";
     ProductImport.product_options := [size_option] |}.

Definition sized_services : ProductImport.Services unit :=
  {| ProductImport.productService_create := fun _ w => Some w;
     ProductImport.productService_update := fun _ _ w => Some w;
     ProductImport.productRepo_findOne := fun _ _ => Some sized_product;
     ProductImport.productVariantService_create := fun _ _ w => Some w;
     ProductImport.productVariantService_update := fun _ _ w => Some w;
     ProductImport.productOptionRepo_findOne := fun title _ =>
       if decide (title = Some "Size") then Some size_option else None |}.

(** A row whose variant has the option [Color], which the product lacks. *)
Definition colored_row : ProductImport.Row :=
  [("product.handle", VStr "shirt");
   ("variant.id", VStr "variant_01");
   ("variant.sku", VStr "shirt-red");
   ("product.options", VArr [EObj [("title", "Color")]]);
   ("variant.options", VArr [EObj [("value", "Red"); ("_title", "Color")]]);
   ("variant.prices", VArr [])].


(** ** Properties of the schema reducers *)





Example reducer_PriceRegion_New_York :
  ProductImport.reducer_PriceRegion [] "Price New York [USD]" (Some "100")
  = Ok [("variant.prices",
         VArr [EObj [("amount", "100"); ("regionName", "New")]])].
Proof. reflexivity. Qed.

(** ** Properties of the classifier *)

Section ClassifierFacts.

Import ProductImport.

Variable findOne : string -> option Region.

Lemma row_get_set_eq (k : string) (v : value) (row : Row) :
  row_get k (row_set k v row) = Some v.
Proof.
  induction row as [|[k' v'] row IH]; simpl.
  - by rewrite decide_True.
  - destruct (decide (k' = k)) as [->|Hk]; simpl.
    + by rewrite decide_True.
    + by rewrite decide_False.
Qed.

Lemma row_get_set_ne (k k' : string) (v : value) (row : Row) :
  k ≠ k' -> row_get k' (row_set k v row) = row_get k' row.
Proof.
  intros Hne. induction row as [|[k0 v0] row IH]; simpl.
  - by rewrite decide_False.
  - destruct (decide (k0 = k)) as [->|Hk]; simpl.
    + by rewrite !decide_False.
    + by rewrite IH.
Qed.

Lemma price_record_references (p : elem) (record : obj) :
  price_record findOne p = Ok record ->
  carries "region_id" record && carries "currency_code" record = false
  /\ (names_reference p = true -> one_reference record = true).
Proof.
  unfold price_record, names_reference, one_reference, truthy_opt.
  destruct (elem_prop "regionName" p) as [name|];
    [destruct (truthy_str name); [destruct (findOne name) as [region|]|]|];
    destruct (elem_prop "amount" p) as [a|];
    destruct (elem_prop "currency_code" p) as [c|];
    intros Hrec; simplify_eq; done.
Qed.

Lemma price_records_references (ps : list elem) (records : list obj) :
  price_records findOne ps = Ok records ->
  Forall2
    (fun p record =>
       carries "region_id" record && carries "currency_code" record = false
       /\ (names_reference p = true -> one_reference record = true))
    ps records.
Proof.
  revert records. induction ps as [|p ps IH]; simpl; intros records Hrec.
  - injection Hrec as <-. constructor.
  - destruct (price_record findOne p) as [record|] eqn:Hp; [|done].
    destruct (price_records findOne ps) as [prices|] eqn:Hps; [|done].
    simpl in Hrec. injection Hrec as <-.
    constructor; [by apply price_record_references | by apply IH].
Qed.

(** C4, as amended. After [handleVariantPrices] the row's [variant.prices]
    holds one record per parsed entry, in order; no record carries both a
    region identifier and a currency code, and a record carries exactly one
    of them when its entry has a non-empty region name or a currency
    code. *)
Theorem handleVariantPrices_references (row row' : Row) :
  handleVariantPrices findOne row = Ok row' ->
  exists ps records,
    iterate (row_get "variant.prices" row) = Ok ps
    /\ row_get "variant.prices" row' = Some (VArr (map EObj records))
    /\ Forall2
         (fun p record =>
            carries "region_id" record && carries "currency_code" record = false
            /\ (names_reference p = true -> one_reference record = true))
         ps records.
Proof.
  unfold handleVariantPrices. intros Hrow.
  destruct (iterate (row_get "variant.prices" row)) as [ps|] eqn:Hps;
    simpl in Hrow; [|done].
  destruct (price_records findOne ps) as [records|] eqn:Hrec;
    simpl in Hrow; [|done].
  injection Hrow as <-.
  exists ps, records. split; [done|]. split.
  - apply row_get_set_eq.
  - by apply price_records_references.
Qed.

End ClassifierFacts.

Lemma handleVariantPrices_references_witness :
  ProductImport.handleVariantPrices sample_findOne priced_row = Ok priced_row_resolved
  /\ exists ps records,
       ProductImport.iterate (ProductImport.row_get "variant.prices" priced_row) = Ok ps
       /\ ProductImport.row_get "variant.prices" priced_row_resolved
          = Some (VArr (map EObj records))
       /\ Forall2
            (fun p record =>
               carries "region_id" record && carries "currency_code" record = false
               /\ (names_reference p = true -> one_reference record = true))
            ps records.
Proof.
  split; [reflexivity|].
  apply (handleVariantPrices_references sample_findOne priced_row priced_row_resolved).
  reflexivity.
Defined.

(** C4, as stated, fails: the header [Price  [USD]] matches the Price Region
    pattern with an empty region name, and the record resolved from its
    entry carries neither a region identifier nor a currency code. *)
Lemma blank_region_price_carries_no_reference :
  ProductImport.reducer_PriceRegion [] "Price  [USD]" (Some "100") = Ok blank_region_row
  /\ ProductImport.handleVariantPrices sample_findOne blank_region_row
     = Ok [("variant.prices", VArr [EObj [("amount", "100")]])]
  /\ one_reference [("amount", "100")] = false.
Proof. repeat split; reflexivity. Qed.

(** C1. A first row of its handle whose product identifier [product.id] is
    set is put on the product-create batch, and the product-update batch
    stays empty: the classifier tests the key [product.product.id], which
    no schema column fills. *)
Theorem row_with_product_id_is_created :
  truthy (ProductImport.row_get "product.id" existing_product_row) = true
  /\ ProductImport.getImportInstructions sample_findOne sample_profile
       [existing_product_row]
     = Ok {| ProductImport.productsCreate := [stamped existing_product_row];
             ProductImport.productsUpdate := [];
             ProductImport.variantsCreate := [stamped existing_product_row];
             ProductImport.variantsUpdate := [] |}.
Proof. split; vm_compute; reflexivity. Qed.

(** C3. A single row whose product handle is [constructor] yields one
    variant-level operation and no product-level operation: the lookup in
    [seenProducts] finds the property every object inherits. *)
Theorem constructor_handle_yields_no_product_operation :
  ProductImport.getImportInstructions sample_findOne sample_profile [constructor_row]
  = Ok {| ProductImport.productsCreate := [];
          ProductImport.productsUpdate := [];
          ProductImport.variantsCreate := [constructor_row];
          ProductImport.variantsUpdate := [] |}.
Proof. vm_compute. reflexivity. Qed.

(** ** Properties of the staging store *)

Lemma append_cancel_l (a b c : string) : a +:+ b = a +:+ c -> b = c.
Proof. induction a as [|x a IH]; simpl; [done|]. intros [= H]. auto. Qed.

Lemma staging_key_not_pattern (batchJobId : string) (op : ProductImport.OperationType) :
  ProductImport.staging_key batchJobId op ≠ "pij_" +:+ batchJobId +:+ ":*".
Proof.
  unfold ProductImport.staging_key. intros H.
  apply (append_cancel_l "pij_"), append_cancel_l, (append_cancel_l ":") in H.
  by destruct op.
Qed.

(** [clearRedisRecords] removes no staged batch: what [get] reads for an
    operation type is the same before and after it. *)
Lemma clearRedisRecords_keeps_batches
    (now now' : nat) (batchJobId : string) (op : ProductImport.OperationType)
    (store : gmap string ProductImport.entry) :
  ProductImport.getImportDataFromRedis now batchJobId op
    (ProductImport.clearRedisRecords now' batchJobId store).1
  = ProductImport.getImportDataFromRedis now batchJobId op store.
Proof.
  unfold ProductImport.getImportDataFromRedis, ProductImport.clearRedisRecords,
    ProductImport.redis_del, ProductImport.redis_get. simpl.
  rewrite lookup_delete_ne; [done|].
  intros H. by apply (staging_key_not_pattern batchJobId op).
Qed.

(** C9. With a product-create batch staged for [job_1], [clearRedisRecords]
    deletes nothing (the key it names, [pij_job_1:*], is not a key of the
    store) and the batch is still read back afterwards. *)
Theorem clearRedisRecords_leaves_staged_batch :
  (ProductImport.clearRedisRecords 1 "job_1" staged_store).2 = 0
  /\ ProductImport.getImportDataFromRedis 1 "job_1" ProductImport.ProductCreate
       (ProductImport.clearRedisRecords 1 "job_1" staged_store).1
     = [stamped existing_product_row].
Proof. split; vm_compute; reflexivity. Qed.

(** ** Properties of the commit phases *)

Section ApplierFacts.

Import ProductImport.

Context {W : Type}.
Variable svc : Services W.

Lemma createProducts_loop_run (rows : list Row) (st : state W) :
  createProducts_loop svc rows st = run_rows svc (map (pair ProductCreate) rows) st.
Proof.
  revert st. induction rows as [|row rows IH]; intros st; simpl; [done|].
  destruct (productService_create svc _ _); simpl; [apply IH | done].
Qed.

Lemma updateProducts_loop_run (rows : list Row) (st : state W) :
  updateProducts_loop svc rows st = run_rows svc (map (pair ProductUpdate) rows) st.
Proof.
  revert st. induction rows as [|row rows IH]; intros st; simpl; [done|].
  destruct (productService_update svc _ _ _); simpl; [apply IH | done].
Qed.

Lemma createVariants_loop_run (rows : list Row) (st : state W) :
  createVariants_loop svc rows st = run_rows svc (map (pair VariantCreate) rows) st.
Proof.
  revert st. induction rows as [|row rows IH]; intros st; simpl; [done|].
  destruct (createVariants_try svc _ _); [apply IH | done].
Qed.

Lemma updateVariants_loop_run (rows : list Row) (st : state W) :
  updateVariants_loop svc rows st = run_rows svc (map (pair VariantUpdate) rows) st.
Proof.
  revert st. induction rows as [|row rows IH]; intros st; simpl; [done|].
  destruct (updateVariants_try svc _ _); simpl; [apply IH | done].
Qed.

Lemma run_rows_app (rows rows' : list (OperationType * Row)) (st : state W) :
  run_rows svc (rows ++ rows') st
  = and_then (run_rows svc rows st) (run_rows svc rows').
Proof.
  revert st. induction rows as [|[op row] rows IH]; intros st; simpl; [done|].
  destruct (try_row svc op row _); [apply IH | done].
Qed.

Lemma processJob_run
    (now : OperationType -> nat) (batchJobId : string) (store : gmap string entry)
    (st : state W) :
  processJob svc now batchJobId store st
  = and_then (run_rows svc (all_staged now batchJobId store) st)
             (fun st => Done (finalize_ st)).
Proof.
  unfold processJob, createProducts, updateProducts, createVariants,
    updateVariants, all_staged.
  rewrite createProducts_loop_run, run_rows_app.
  destruct (run_rows svc (map (pair ProductCreate) _) st) as [st1|]; simpl; [|done].
  rewrite updateProducts_loop_run, run_rows_app.
  destruct (run_rows svc (map (pair ProductUpdate) _) st1) as [st2|]; simpl; [|done].
  rewrite createVariants_loop_run, run_rows_app.
  destruct (run_rows svc (map (pair VariantCreate) _) st2) as [st3|]; simpl; [|done].
  rewrite updateVariants_loop_run.
  by destruct (run_rows svc (map (pair VariantUpdate) _) st3).
Qed.

(** A row that is processed changes the entity store and calls
    [updateProgress_] once. *)
Lemma try_row_Some (op : OperationType) (row : Row) (st st' : state W) :
  try_row svc op row st = Some st' ->
  exists w, st' = updateProgress_ (set_world w st).
Proof.
  destruct op; simpl.
  - destruct (productService_create svc _ _) as [w|]; simpl; [|done].
    intros [= <-]. eauto.
  - destruct (productService_update svc _ _ _) as [w|]; simpl; [|done].
    intros [= <-]. eauto.
  - unfold createVariants_try.
    destruct (option_ids _ _); simpl; [|done].
    destruct (with_option_ids _ _); simpl; [|done].
    destruct (productVariantService_create svc _ _ _) as [w|]; simpl; [|done].
    intros [= <-]. eauto.
  - unfold updateVariants_try.
    destruct (prepareVariantOptions svc _ _); simpl; [|done].
    destruct (productVariantService_update svc _ _ _) as [w|]; simpl; [|done].
    intros [= <-]. eauto.
Qed.

Lemma checkpoints_S (c n : nat) :
  checkpoints c (S n)
  = (if decide (S c mod BATCH_SIZE = 0) then [Some (S c)] else [])
    ++ checkpoints (S c) n.
Proof.
  unfold checkpoints. rewrite <- cons_seq, filter_cons.
  by destruct (decide (S c mod BATCH_SIZE = 0)).
Qed.

(** Progress is written on a row exactly when the counter it reaches is a
    multiple of [BATCH_SIZE]. *)
Lemma updateProgress_writes (st : state W) :
  processedCounter (updateProgress_ st) = S (processedCounter st)
  /\ progress_writes (updateProgress_ st)
     = progress_writes st
       ++ (if decide (S (processedCounter st) mod BATCH_SIZE = 0)
           then [Some (S (processedCounter st))] else [])
  /\ total (context (updateProgress_ st)) = total (context st)
  /\ started (updateProgress_ st) = started st.
Proof.
  unfold updateProgress_.
  destruct (decide (S (processedCounter st) mod BATCH_SIZE ≠ 0)) as [Hne|He].
  - rewrite decide_False by done. simpl. by rewrite app_nil_r.
  - rewrite decide_True by (by destruct (decide (S (processedCounter st) mod BATCH_SIZE = 0))).
    done.
Qed.

Lemma run_rows_Done (rows : list (OperationType * Row)) (st st' : state W) :
  run_rows svc rows st = Done st' ->
  processedCounter st' = processedCounter st + length rows
  /\ progress_writes st'
     = progress_writes st ++ checkpoints (processedCounter st) (length rows)
  /\ total (context st') = total (context st)
  /\ started st' = started st ++ rows.
Proof.
  revert st. induction rows as [|[op row] rows IH]; intros st; simpl.
  - intros [= <-]. unfold checkpoints. simpl. rewrite !app_nil_r. auto with lia.
  - destruct (try_row svc op row _) as [st1|] eqn:Htry; [|done].
    intros Hrun. apply IH in Hrun as (Hc & Hw & Ht & Hs).
    apply try_row_Some in Htry as [w ->].
    destruct (updateProgress_writes (set_world w (start op row st)))
      as (Hc1 & Hw1 & Ht1 & Hs1).
    simpl in *.
    rewrite Hc, Hw, Ht, Hs, Hc1, Hw1, Ht1, Hs1, checkpoints_S.
    rewrite <- !app_assoc. simpl. auto with lia.
Qed.

End ApplierFacts.

(** C2. When the rows before a row are processed without error and the
    processing of that row throws, [processJob] throws the invalid-data
    error whose message names the row's product id, product handle, variant
    id and variant sku; the rows started are exactly those up to and
    including that row, so that no later row and no later phase is run, and
    the final progress write is not made. *)
Theorem failing_row_aborts_job
    {W : Type} (svc : ProductImport.Services W)
    (now : ProductImport.OperationType -> nat) (batchJobId : string)
    (store : gmap string ProductImport.entry)
    (st st1 : ProductImport.state W)
    (prefix rest : list (ProductImport.OperationType * ProductImport.Row))
    (op : ProductImport.OperationType) (row : ProductImport.Row) :
  all_staged now batchJobId store = prefix ++ (op, row) :: rest ->
  run_rows svc prefix st = ProductImport.Done st1 ->
  try_row svc op row (ProductImport.start op row st1) = None ->
  exists st',
    ProductImport.processJob svc now batchJobId store st
    = ProductImport.Failed
        (INVALID_DATA
           ("Error while processing row with:" +:+ ProductImport.newline +:+
            "      product id: "
              +:+ to_string (ProductImport.row_get "product.id" row)
              +:+ "," +:+ ProductImport.newline +:+
            "      product handle: "
              +:+ to_string (ProductImport.row_get "product.handle" row)
              +:+ "," +:+ ProductImport.newline +:+
            "      variant id: "
              +:+ to_string (ProductImport.row_get "variant.id" row)
              +:+ ProductImport.newline +:+
            "      variant sku: "
              +:+ to_string (ProductImport.row_get "variant.sku" row)))
        st'
    /\ ProductImport.started st' = ProductImport.started st ++ prefix ++ [(op, row)]
    /\ ProductImport.progress_writes st' = ProductImport.progress_writes st1.
Proof.
  intros Hall Hprefix Hrow.
  exists (ProductImport.start op row st1).
  rewrite processJob_run, Hall, run_rows_app, Hprefix. simpl. rewrite Hrow.
  split; [done|]. split; [|done].
  apply run_rows_Done in Hprefix as (_ & _ & _ & ->).
  by rewrite app_assoc.
Qed.

Lemma failing_row_aborts_job_witness :
  all_staged (fun _ => 1) "job_1" import_store
  = [(ProductImport.ProductCreate, stamped existing_product_row)]
    ++ (ProductImport.VariantCreate, stamped existing_product_row)
    :: [(ProductImport.VariantCreate, second_row)]
  /\ run_rows rejecting_variants
       [(ProductImport.ProductCreate, stamped existing_product_row)] import_start
     = ProductImport.Done import_after_product
  /\ try_row rejecting_variants ProductImport.VariantCreate
       (stamped existing_product_row)
       (ProductImport.start ProductImport.VariantCreate
          (stamped existing_product_row) import_after_product)
     = None
  /\ exists st',
       ProductImport.processJob rejecting_variants (fun _ => 1) "job_1"
         import_store import_start
       = ProductImport.Failed
           (INVALID_DATA
              ("Error while processing row with:" +:+ ProductImport.newline +:+
               "      product id: " +:+ "prod_01" +:+ "," +:+ ProductImport.newline +:+
               "      product handle: " +:+ "shirt" +:+ "," +:+ ProductImport.newline +:+
               "      variant id: " +:+ "undefined" +:+ ProductImport.newline +:+
               "      variant sku: " +:+ "shirt-s"))
           st'
       /\ ProductImport.started st'
          = ProductImport.started import_start
            ++ [(ProductImport.ProductCreate, stamped existing_product_row)]
            ++ [(ProductImport.VariantCreate, stamped existing_product_row)]
       /\ ProductImport.progress_writes st'
          = ProductImport.progress_writes import_after_product.
Proof.
  split; [vm_compute; reflexivity|].
  split; [vm_compute; reflexivity|].
  split; [vm_compute; reflexivity|].
  apply (failing_row_aborts_job rejecting_variants (fun _ => 1) "job_1"
           import_store import_start import_after_product
           [(ProductImport.ProductCreate, stamped existing_product_row)]
           [(ProductImport.VariantCreate, second_row)]
           ProductImport.VariantCreate (stamped existing_product_row));
    vm_compute; reflexivity.
Defined.



(** ** Properties of the shape discovery *)

Section DiscovererFacts.

Import ProductExport.

Lemma elem_of_set_add (k x : ProductExportPriceData) (s : list ProductExportPriceData) :
  k ∈ set_add x s ↔ k = x ∨ k ∈ s.
Proof.
  unfold set_add. destruct (decide (x ∈ s)) as [Hin|Hout].
  - split; [auto|]. by intros [->|?].
  - rewrite elem_of_app, list_elem_of_singleton. tauto.
Qed.

Lemma NoDup_set_add (x : ProductExportPriceData) (s : list ProductExportPriceData) :
  NoDup s -> NoDup (set_add x s).
Proof.
  unfold set_add. intros Hs. destruct (decide (x ∈ s)) as [Hin|Hout]; [done|].
  apply NoDup_app. split; [done|]. split; [|apply NoDup_singleton].
  intros y Hy ->%list_elem_of_singleton. done.
Qed.

Lemma elem_of_scan_variant
    (k : ProductExportPriceData) (variant : ProductVariant)
    (s : list ProductExportPriceData) :
  k ∈ scan_variant variant s ↔ k ∈ s ∨ k ∈ map price_data (prices variant).
Proof.
  unfold scan_variant. revert s.
  induction (prices variant) as [|price l IH]; intros s; simpl.
  - rewrite elem_of_nil. tauto.
  - rewrite IH, elem_of_set_add, elem_of_cons. tauto.
Qed.

Lemma NoDup_scan_variant (variant : ProductVariant) (s : list ProductExportPriceData) :
  NoDup s -> NoDup (scan_variant variant s).
Proof.
  unfold scan_variant. revert s.
  induction (prices variant) as [|price l IH]; intros s Hs; simpl; [done|].
  by apply IH, NoDup_set_add.
Qed.

Lemma elem_of_scan_product (k : ProductExportPriceData) (acc : scan) (product : Product) :
  k ∈ pricesData (scan_product acc product)
  ↔ k ∈ pricesData acc ∨ k ∈ product_price_keys product.
Proof.
  unfold scan_product, product_price_keys. simpl.
  generalize (pricesData acc) as s.
  induction (variants product) as [|variant l IH]; intros s; simpl.
  - rewrite elem_of_nil. tauto.
  - rewrite IH, elem_of_scan_variant, elem_of_app. tauto.
Qed.

Lemma NoDup_scan_product (acc : scan) (product : Product) :
  NoDup (pricesData acc) -> NoDup (pricesData (scan_product acc product)).
Proof.
  unfold scan_product. simpl. generalize (pricesData acc) as s.
  induction (variants product) as [|variant l IH]; intros s Hs; simpl; [done|].
  by apply IH, NoDup_scan_variant.
Qed.

Lemma scan_products_spec (acc : scan) (products : list Product) :
  optionColumnCount (scan_products acc products)
  = Nat.max (optionColumnCount acc)
            (max_list_with (fun p => length (options p)) products)
  /\ imageColumnCount (scan_products acc products)
     = Nat.max (imageColumnCount acc)
               (max_list_with (fun p => length (images p)) products)
  /\ (forall k, k ∈ pricesData (scan_products acc products)
                ↔ k ∈ pricesData acc ∨ exists p, p ∈ products /\ k ∈ product_price_keys p)
  /\ (NoDup (pricesData acc) -> NoDup (pricesData (scan_products acc products))).
Proof.
  unfold scan_products. revert acc.
  induction products as [|product l IH]; intros acc; simpl.
  - repeat split; try lia; [auto | | done].
    intros [?|(p & Hp & _)]; [done | by apply elem_of_nil in Hp].
  - destruct (IH (scan_product acc product)) as (Ho & Hi & Hk & Hn).
    rewrite Ho, Hi. simpl. repeat split; try lia.
    + intros Hin. apply Hk in Hin as [Hin|(p & Hp & Hin)].
      * apply elem_of_scan_product in Hin as [?|?]; [by left|].
        right. exists product. split; [left | done].
      * right. exists p. split; [by right | done].
    + intros Hin. apply Hk. destruct Hin as [Hin|(p & Hp & Hin)].
      * left. apply elem_of_scan_product. by left.
      * apply elem_of_cons in Hp as [->|Hp].
        -- left. apply elem_of_scan_product. by right.
        -- right. eauto.
    + intros Hacc. by apply Hn, NoDup_scan_product.
Qed.

(** C7. Two datasets that are permutations of one another have the same
    [dynamicOptionColumnCount], the same [dynamicImageColumnCount] and the
    same set of distinct price keys: each list of keys is free of
    duplicates and holds the members of the other. *)
Theorem discoverShape_order_independent (products products' : list Product) :
  products ≡ₚ products' ->
  dynamicOptionColumnCount (discoverShape products)
  = dynamicOptionColumnCount (discoverShape products')
  /\ dynamicImageColumnCount (discoverShape products)
     = dynamicImageColumnCount (discoverShape products')
  /\ NoDup (shape_prices (discoverShape products))
  /\ NoDup (shape_prices (discoverShape products'))
  /\ forall k, k ∈ shape_prices (discoverShape products)
               ↔ k ∈ shape_prices (discoverShape products').
Proof.
  intros Hperm. unfold discoverShape. simpl.
  destruct (scan_products_spec scan_start products) as (Ho & Hi & Hk & Hn).
  destruct (scan_products_spec scan_start products') as (Ho' & Hi' & Hk' & Hn').
  rewrite Ho, Ho', Hi, Hi'.
  rewrite (max_list_with_Permutation_proper
             (fun p => length (options p)) products products' Hperm).
  rewrite (max_list_with_Permutation_proper
             (fun p => length (images p)) products products' Hperm).
  repeat split; [apply Hn, NoDup_nil_2 | apply Hn', NoDup_nil_2 | |].
  - intros Hin. apply Hk'. apply Hk in Hin as [Hin|(p & Hp & Hin)]; [by left|].
    right. exists p. split; [|done].
    apply list_elem_of_In. apply list_elem_of_In in Hp.
    by apply (Permutation_in _ Hperm).
  - intros Hin. apply Hk. apply Hk' in Hin as [Hin|(p & Hp & Hin)]; [by left|].
    right. exists p. split; [|done].
    apply list_elem_of_In. apply list_elem_of_In in Hp.
    by apply (Permutation_in _ (Permutation_sym Hperm)).
Qed.

End DiscovererFacts.

(** ** Properties of the streaming writer *)

Section WriterFacts.

Import ProductExport.

Variable productService_ : ProductService.
Variable status_after_update : nat -> BatchJobStatus.
Variable fileKey : string.

Lemma count_updates_app (evs evs' : list event) :
  count_updates (evs ++ evs') = count_updates evs + count_updates evs'.
Proof. induction evs as [|[] evs IH]; simpl; lia. Qed.

Lemma count_updates_writes (lines : list string) :
  count_updates (map Write lines) = 0.
Proof. by induction lines. Qed.

(** Where an update can stand in the events of one page followed by
    others. *)
Lemma page_events_split
    (lines : list string) (r0 r : ExportResult) (tail pre post : list event) :
  map Write lines ++ UpdateResult r0 :: tail = pre ++ UpdateResult r :: post ->
  (pre = map Write lines /\ r = r0 /\ post = tail)
  \/ exists pre', pre = map Write lines ++ UpdateResult r0 :: pre'
                  /\ tail = pre' ++ UpdateResult r :: post.
Proof.
  revert pre. induction lines as [|line lines IH]; intros pre; simpl.
  - destruct pre as [|e pre]; simpl; intros [= ]; subst; eauto.
  - destruct pre as [|e pre]; simpl; intros [= ]; subst.
    destruct (IH pre) as [(-> & -> & ->)|(pre' & -> & ->)]; eauto.
Qed.

Lemma write_loop_cancel
    (columns : Columns) (fuel productCount limit offset advancementCount n : nat)
    (products : list Product) (current : option ExportResult)
    (pre post : list event) (r : ExportResult) :
  events (write_loop productService_ status_after_update fileKey columns
            fuel productCount limit offset advancementCount n products current)
  = pre ++ UpdateResult r :: post ->
  status_after_update (n + count_updates pre) = CANCELED ->
  post = [End_; Delete fileKey]
  /\ job_result (write_loop productService_ status_after_update fileKey columns
                   fuel productCount limit offset advancementCount n products current)
     = Some r
  /\ run_exit (write_loop productService_ status_after_update fileKey columns
                 fuel productCount limit offset advancementCount n products current)
     = Canceled.
Proof.
  revert offset advancementCount n products current pre.
  induction fuel as [|fuel IH]; intros offset advancementCount n products current pre;
    simpl; destruct (decide (offset < productCount)); simpl.
  - by destruct pre.
  - by destruct pre as [|? []].
  - set (page := match products with
                 | [] => list_ productService_
                           {| skip := Some offset; take := Some limit |}
                 | _ :: _ => products
                 end).
    destruct (decide (status_after_update n = CANCELED)) as [Hc|Hc]; simpl.
    + intros Hev _.
      apply page_events_split in Hev as [(-> & -> & ->)|(pre' & -> & Htail)];
        [done|].
      by destruct pre' as [|? [|? []]].
    + intros Hev Hk.
      apply page_events_split in Hev as [(-> & -> & ->)|(pre' & -> & Htail)].
      * rewrite count_updates_writes, Nat.add_0_r in Hk. done.
      * apply IH in Htail; [done|].
        rewrite count_updates_app, count_updates_writes in Hk. simpl in Hk.
        by replace (S n + count_updates pre') with (n + S (count_updates pre')) by lia.
  - by destruct pre as [|? []].
Qed.

(** C6. If the status read after the update that follows page [k] (the
    [k]-th update of the run, counted from 0) is [CANCELED], then the only
    events after that update are the end of the stream and the deletion of
    the output file, so that no later page is written; the job result is
    the one persisted by that update, and the run ends as canceled. *)
Theorem cancel_after_page_stops_export
    (columnDescriptors : Columns) (fuel : nat) (batchJob : ProductExportBatchJob)
    (k : nat) (pre post : list event) (r : ExportResult) :
  events (processJob productService_ status_after_update fileKey
            columnDescriptors fuel batchJob)
  = pre ++ UpdateResult r :: post ->
  count_updates pre = k ->
  status_after_update k = CANCELED ->
  post = [End_; Delete fileKey]
  /\ job_result (processJob productService_ status_after_update fileKey
                   columnDescriptors fuel batchJob)
     = Some r
  /\ run_exit (processJob productService_ status_after_update fileKey
                 columnDescriptors fuel batchJob)
     = Canceled.
Proof.
  unfold processJob.
  destruct (buildHeader (context_shape batchJob) columnDescriptors) as [header cols].
  destruct (listAndCount productService_ _) as [productList productCount].
  simpl. destruct pre as [|e pre]; simpl; [done|].
  intros [= <- Hev] Hk Hc. simpl in Hk.
  eapply write_loop_cancel; [exact Hev|]. simpl. by rewrite Hk.
Qed.

End WriterFacts.

Lemma cancel_after_page_stops_export_witness :
  let run :=
    ProductExport.processJob (dataset_service [shirt; hat; scarf]) canceled_at_second
      "exports/products.csv" sample_columns 10 sample_export_job in
  let pre :=
    [ProductExport.Write ("Product Handle;Variant SKU" +:+ ProductExport.NEWLINE_);
     ProductExport.Write ("shirt;shirt-s" +:+ ProductExport.NEWLINE_);
     ProductExport.UpdateResult (result_after 1);
     ProductExport.Write ("hat;hat-1" +:+ ProductExport.NEWLINE_)] in
  ProductExport.events run
  = pre ++ ProductExport.UpdateResult (result_after 2)
        :: [ProductExport.End_; ProductExport.Delete "exports/products.csv"]
  /\ count_updates pre = 1
  /\ canceled_at_second 1 = ProductExport.CANCELED
  /\ [ProductExport.End_; ProductExport.Delete "exports/products.csv"]
     = [ProductExport.End_; ProductExport.Delete "exports/products.csv"]
  /\ ProductExport.job_result run = Some (result_after 2)
  /\ ProductExport.run_exit run = ProductExport.Canceled.
Proof.
  intros run pre.
  split; [vm_compute; reflexivity|].
  split; [reflexivity|].
  split; [reflexivity|].
  apply (cancel_after_page_stops_export (dataset_service [shirt; hat; scarf])
           canceled_at_second "exports/products.csv" sample_columns 10
           sample_export_job 1 pre
           [ProductExport.End_; ProductExport.Delete "exports/products.csv"]
           (result_after 2));
    [vm_compute; reflexivity | reflexivity | reflexivity].
Defined.

Lemma discoverShape_order_independent_witness :
  [shirt; hat; scarf] ≡ₚ [scarf; shirt; hat]
  /\ ProductExport.dynamicOptionColumnCount (ProductExport.discoverShape [shirt; hat; scarf])
     = ProductExport.dynamicOptionColumnCount (ProductExport.discoverShape [scarf; shirt; hat])
  /\ ProductExport.dynamicImageColumnCount (ProductExport.discoverShape [shirt; hat; scarf])
     = ProductExport.dynamicImageColumnCount (ProductExport.discoverShape [scarf; shirt; hat])
  /\ NoDup (ProductExport.shape_prices (ProductExport.discoverShape [shirt; hat; scarf]))
  /\ NoDup (ProductExport.shape_prices (ProductExport.discoverShape [scarf; shirt; hat]))
  /\ forall k,
       k ∈ ProductExport.shape_prices (ProductExport.discoverShape [shirt; hat; scarf])
       ↔ k ∈ ProductExport.shape_prices (ProductExport.discoverShape [scarf; shirt; hat]).
Proof.
  assert (Hperm : [shirt; hat; scarf] ≡ₚ [scarf; shirt; hat]).
  { change ([shirt; hat] ++ [scarf] ≡ₚ [scarf] ++ [shirt; hat]).
    apply Permutation_app_comm. }
  split; [exact Hperm|].
  apply (discoverShape_order_independent [shirt; hat; scarf] [scarf; shirt; hat] Hperm).
Defined.

(** ** Properties of the header *)

Section HeaderFacts.

Import ProductExport.

Lemma columns_set_fresh
    (k : string) (d : ProductExportColumnSchemaDescriptor) (columns : Columns) :
  k ∉ map fst columns ->
  map fst (columns_set k d columns) = map fst columns ++ [k].
Proof.
  induction columns as [|[k' d'] columns IH]; simpl; [done|].
  intros Hk. apply not_elem_of_cons in Hk as [Hne Hk].
  rewrite decide_False by done. simpl. by rewrite IH.
Qed.

Lemma NoDup_app_cons_fresh (l k : list string) (x : string) :
  NoDup (l ++ x :: k) -> (x ∉ l) /\ NoDup ((l ++ [x]) ++ k).
Proof.
  intros Hnd. split.
  - apply NoDup_app in Hnd as (_ & Hdisj & _).
    intros Hx. apply (Hdisj x Hx). by left.
  - by rewrite <- app_assoc.
Qed.

(** Registering the columns of a list of items whose names are new and
    distinct appends these names, item after item. *)
Lemma fold_columns_names {A : Type}
    (f : Columns -> A -> Columns) (names : A -> list string) :
  (forall columns a,
      NoDup (map fst columns ++ names a) ->
      map fst (f columns a) = map fst columns ++ names a) ->
  forall (items : list A) (columns : Columns),
    NoDup (map fst columns ++ flat_map names items) ->
    map fst (fold_left f items columns) = map fst columns ++ flat_map names items.
Proof.
  intros Hf items. induction items as [|a items IH]; intros columns Hnd; simpl.
  - by rewrite app_nil_r.
  - simpl in Hnd. rewrite app_assoc in Hnd.
    assert (Ha : map fst (f columns a) = map fst columns ++ names a).
    { apply Hf. by apply NoDup_app in Hnd as (? & _ & _). }
    rewrite IH; rewrite Ha; [by rewrite <- app_assoc | done].
Qed.

Lemma append_price_names (columns : Columns) (priceData : ProductExportPriceData) :
  NoDup (map fst columns ++ price_column_names priceData) ->
  map fst (append_price columns priceData)
  = map fst columns ++ price_column_names priceData.
Proof.
  unfold append_price, price_column_names.
  destruct (price_currency_code priceData) as [code|];
    [destruct (truthy_str code)|];
    destruct (price_region priceData) as [r|]; simpl; intros Hnd;
    rewrite ?app_nil_r; try done.
  - apply NoDup_app_cons_fresh in Hnd as [Hc Hnd].
    apply NoDup_app_cons_fresh in Hnd as [Hr _].
    rewrite columns_set_fresh; rewrite columns_set_fresh; try done.
    by rewrite <- app_assoc.
  - apply NoDup_app_cons_fresh in Hnd as [Hc _]. by apply columns_set_fresh.
  - apply NoDup_app_cons_fresh in Hnd as [Hr _]. by apply columns_set_fresh.
  - apply NoDup_app_cons_fresh in Hnd as [Hr _]. by apply columns_set_fresh.
Qed.

Lemma appendMoneyAmountDescriptors_names
    (pricesData : list ProductExportPriceData) (columns : Columns) :
  NoDup (map fst columns ++ flat_map price_column_names pricesData) ->
  map fst (appendMoneyAmountDescriptors pricesData columns)
  = map fst columns ++ flat_map price_column_names pricesData.
Proof. apply fold_columns_names, append_price_names. Qed.

Lemma appendOptionsDescriptors_names (maxOptionsCount : nat) (columns : Columns) :
  NoDup (map fst columns ++ flat_map option_column_names (seq 0 maxOptionsCount)) ->
  map fst (appendOptionsDescriptors maxOptionsCount columns)
  = map fst columns ++ flat_map option_column_names (seq 0 maxOptionsCount).
Proof.
  apply (fold_columns_names _ option_column_names).
  intros cols i Hnd. unfold option_column_names in *.
  apply NoDup_app_cons_fresh in Hnd as [Hn Hnd].
  apply NoDup_app_cons_fresh in Hnd as [Hv _].
  rewrite columns_set_fresh; rewrite columns_set_fresh; try done.
  by rewrite <- app_assoc.
Qed.

Lemma appendImagesDescriptors_names (maxImagesCount : nat) (columns : Columns) :
  NoDup (map fst columns ++ flat_map image_column_names (seq 0 maxImagesCount)) ->
  map fst (appendImagesDescriptors maxImagesCount columns)
  = map fst columns ++ flat_map image_column_names (seq 0 maxImagesCount).
Proof.
  apply (fold_columns_names _ image_column_names).
  intros cols i Hnd. unfold image_column_names in *.
  apply NoDup_app_cons_fresh in Hnd as [Hi _]. by apply columns_set_fresh.
Qed.

Lemma price_column_names_length (priceData : ProductExportPriceData) :
  length (price_column_names priceData) = price_column_count priceData.
Proof.
  unfold price_column_names, price_column_count, truthy_opt.
  destruct (price_currency_code priceData) as [code|];
    [destruct (truthy_str code)|];
    by destruct (price_region priceData).
Qed.

Lemma flat_map_length_sum {A B : Type} (f : A -> list B) (l : list A) :
  length (flat_map f l) = sum_list (map (fun a => length (f a)) l).
Proof. induction l as [|a l IH]; simpl; [done|]. by rewrite length_app, IH. Qed.

Lemma option_column_names_length (start n : nat) :
  length (flat_map option_column_names (seq start n)) = 2 * n.
Proof. revert start. induction n as [|n IH]; intros start; simpl; [done|]. rewrite IH. lia. Qed.

Lemma image_column_names_length (start n : nat) :
  length (flat_map image_column_names (seq start n)) = n.
Proof. revert start. induction n as [|n IH]; intros start; simpl; [done|]. by rewrite IH. Qed.

(** C8, as amended. For a stored shape whose dynamic column names are
    pairwise distinct and not yet in the descriptor map, [buildHeader]
    appends to the map, for each price key of the shape in order, one
    column named by the currency code when the key has a non-empty currency
    code and one column named by the region when the key has a region (two
    columns for a key that has both), then one option-name/option-value pair
    of columns per option slot and one image-url column per image slot; the
    header line is these names joined. *)
Theorem buildHeader_columns (shape : Shape) (columns : Columns) :
  NoDup (map fst columns ++ dynamic_column_names shape) ->
  map fst (buildHeader (Some shape) columns).2
  = map fst columns ++ dynamic_column_names shape
  /\ (buildHeader (Some shape) columns).1
     = join DELIMITER_ (map fst columns ++ dynamic_column_names shape) +:+ NEWLINE_
  /\ length (buildHeader (Some shape) columns).2
     = length columns
       + sum_list (map price_column_count (shape_prices shape))
       + 2 * dynamicOptionColumnCount shape
       + dynamicImageColumnCount shape.
Proof.
  unfold dynamic_column_names. intros Hnd.
  assert (Hnames : map fst (extend_columns (Some shape) columns)
                   = map fst columns ++ dynamic_column_names shape).
  { unfold extend_columns, dynamic_column_names. simpl.
    rewrite !app_assoc in Hnd.
    pose proof Hnd as Hnd2. apply NoDup_app in Hnd2 as (Hnd2 & _ & _).
    pose proof Hnd2 as Hnd1. apply NoDup_app in Hnd1 as (Hnd1 & _ & _).
    pose proof (appendMoneyAmountDescriptors_names _ _ Hnd1) as H1.
    rewrite <- H1 in Hnd2.
    pose proof (appendOptionsDescriptors_names _ _ Hnd2) as H2.
    rewrite <- H1, <- H2 in Hnd.
    rewrite (appendImagesDescriptors_names _ _ Hnd), H2, H1.
    by rewrite <- !app_assoc. }
  unfold buildHeader. simpl. fold (dynamic_column_names shape).
  rewrite Hnames. split; [done|]. split; [done|].
  rewrite <- (length_map fst (extend_columns _ _)), Hnames.
  unfold dynamic_column_names.
  rewrite !length_app, length_map, flat_map_length_sum,
    option_column_names_length, image_column_names_length.
  rewrite (map_ext _ _ price_column_names_length). lia.
Qed.

End HeaderFacts.

Lemma buildHeader_columns_witness :
  NoDup (map fst sample_columns ++ dynamic_column_names sample_shape)
  /\ map fst (ProductExport.buildHeader (Some sample_shape) sample_columns).2
     = map fst sample_columns ++ dynamic_column_names sample_shape
  /\ (ProductExport.buildHeader (Some sample_shape) sample_columns).1
     = join ProductExport.DELIMITER_
         (map fst sample_columns ++ dynamic_column_names sample_shape)
       +:+ ProductExport.NEWLINE_
  /\ length (ProductExport.buildHeader (Some sample_shape) sample_columns).2
     = length sample_columns
       + sum_list (map price_column_count (ProductExport.shape_prices sample_shape))
       + 2 * ProductExport.dynamicOptionColumnCount sample_shape
       + ProductExport.dynamicImageColumnCount sample_shape.
Proof.
  assert (Hnd : NoDup (map fst sample_columns ++ dynamic_column_names sample_shape)).
  { refine (bool_decide_unpack _ _). vm_compute. exact I. }
  split; [exact Hnd|].
  apply (buildHeader_columns sample_shape sample_columns Hnd).
Defined.

Example sample_header :
  (ProductExport.buildHeader (Some sample_shape) sample_columns).1
  = "Product Handle;Variant SKU;Price DKK ;Price EUR (reg_fr);Price france (reg_fr);Option 1 Name;Option 1 Value;Image 1 Url"
    +:+ ProductExport.NEWLINE_.
Proof. vm_compute. reflexivity. Qed.

(** C8, as stated, fails: a shape with the single price key of a price set
    in a region gives the header two price columns, one named by the
    currency of the region and one by its name. *)
Lemma region_price_key_gets_two_columns :
  length (remove_dups (ProductExport.shape_prices france_shape)) = 1
  /\ map fst (ProductExport.buildHeader (Some france_shape) sample_columns).2
     = map fst sample_columns ++ ["Price EUR (reg_fr)"; "Price france (reg_fr)"]
  /\ length (ProductExport.buildHeader (Some france_shape) sample_columns).2
     - length sample_columns
     <> length (remove_dups (ProductExport.shape_prices france_shape)).
Proof. repeat split; vm_compute; congruence. Qed.

(** ** Further properties of the classifier *)

Section ClassifierMore.

Import ProductImport.

Variable findOne : string -> option Region.
Variable shippingProfile : value.

Lemma handleVariantPrices_get (row row' : Row) (k : string) :
  handleVariantPrices findOne row = Ok row' ->
  k ≠ "variant.prices" ->
  row_get k row' = row_get k row.
Proof.
  unfold handleVariantPrices. intros Hrow Hk.
  destruct (iterate (row_get "variant.prices" row)) as [ps|]; simpl in Hrow; [|done].
  destruct (price_records findOne ps) as [records|]; simpl in Hrow; [|done].
  injection Hrow as <-. by apply row_get_set_ne.
Qed.

(** What one iteration of the loop does to the four batches: the row,
    with its prices resolved and stamped when its handle is new, goes to one
    variant batch, and to one product batch when its handle is new. *)
Lemma classify_row_inv (st st' : locals) (row : Row) :
  classify_row findOne shippingProfile st row = Ok st' ->
  exists row2,
    (forall k, k ≠ "variant.prices" -> k ≠ "product.profile_id" ->
               row_get k row2 = row_get k row)
    /\ ((variantsCreate (ops st') = variantsCreate (ops st) ++ [row2]
         /\ variantsUpdate (ops st') = variantsUpdate (ops st)
         /\ truthy (row_get "variant.id" row) = false)
        \/ (variantsCreate (ops st') = variantsCreate (ops st)
            /\ variantsUpdate (ops st') = variantsUpdate (ops st) ++ [row2]
            /\ truthy (row_get "variant.id" row) = true))
    /\ ((seen_lookup (handle_of row) (seenProducts st) = true
         /\ seenProducts st' = seenProducts st
         /\ productsCreate (ops st') = productsCreate (ops st)
         /\ productsUpdate (ops st') = productsUpdate (ops st))
        \/ (seen_lookup (handle_of row) (seenProducts st) = false
            /\ seenProducts st' = seen_mark (handle_of row) (seenProducts st)
            /\ row_get "product.profile_id" row2 = Some shippingProfile
            /\ ((productsCreate (ops st') = productsCreate (ops st) ++ [row2]
                 /\ productsUpdate (ops st') = productsUpdate (ops st)
                 /\ truthy (row_get "product.product.id" row) = false)
                \/ (productsCreate (ops st') = productsCreate (ops st)
                    /\ productsUpdate (ops st') = productsUpdate (ops st) ++ [row2]
                    /\ truthy (row_get "product.product.id" row) = true)))).
Proof.
  unfold classify_row, handle_of. intros Hrow.
  destruct (length_truthy (row_get "variant.prices" row)) as [has|];
    simpl in Hrow; [|done].
  set (r1 := if has then handleVariantPrices findOne row else Ok row) in Hrow.
  destruct r1 as [row1|] eqn:Hr1; simpl in Hrow; [|done].
  assert (Hget : forall k, k ≠ "variant.prices" -> row_get k row1 = row_get k row).
  { intros k Hk. subst r1. destruct has.
    - by apply handleVariantPrices_get.
    - by injection Hr1 as <-. }
  rewrite !(Hget "product.handle") in Hrow by done.
  rewrite (Hget "variant.id") in Hrow by done.
  destruct (seen_lookup (to_string (row_get "product.handle" row)) (seenProducts st))
    eqn:Hseen; simpl in Hrow.
  - exists row1. split; [auto|].
    destruct (truthy (row_get "variant.id" row)); injection Hrow as <-; simpl;
      split; auto 10.
  - exists (row_set "product.profile_id" shippingProfile row1).
    rewrite row_get_set_ne, (Hget "product.product.id") in Hrow by done.
    split.
    { intros k Hk1 Hk2. rewrite row_get_set_ne by done. auto. }
    rewrite row_get_set_eq.
    destruct (truthy (row_get "variant.id" row));
      destruct (truthy (row_get "product.product.id" row));
      injection Hrow as <-; simpl; split; auto 10.
Qed.

Lemma classify_rows_lengths (rows : list Row) (st st' : locals) :
  classify_rows findOne shippingProfile st rows = Ok st' ->
  length (variantsCreate (ops st')) + length (variantsUpdate (ops st'))
  = length (variantsCreate (ops st)) + length (variantsUpdate (ops st)) + length rows
  /\ length (productsCreate (ops st')) + length (productsUpdate (ops st'))
     <= length (productsCreate (ops st)) + length (productsUpdate (ops st)) + length rows.
Proof.
  revert st. induction rows as [|row rows IH]; intros st; simpl.
  - intros [= <-]. lia.
  - destruct (classify_row findOne shippingProfile st row) as [st1|] eqn:Hrow;
      simpl; [|done].
    intros Hrows. apply IH in Hrows as [Hv Hp].
    apply classify_row_inv in Hrow as (row2 & _ & Hvar & Hprod).
    destruct Hvar as [(E1 & E2 & _)|(E1 & E2 & _)];
      destruct Hprod as [(_ & _ & E3 & E4)|(_ & _ & _ & [(E3 & E4 & _)|(E3 & E4 & _)])];
      rewrite E1, E2 in Hv; rewrite E3, E4 in Hp;
      rewrite ?length_app in *; simpl in *; lia.
Qed.

(** X1. Every parsed row becomes exactly one variant-level operation, and
    there are at most as many product-level operations as rows. *)
Theorem every_row_is_one_variant_operation (csvData : list Row) (ops : Instructions) :
  getImportInstructions findOne shippingProfile csvData = Ok ops ->
  length (variantsCreate ops) + length (variantsUpdate ops) = length csvData
  /\ length (productsCreate ops) + length (productsUpdate ops) <= length csvData.
Proof.
  unfold getImportInstructions.
  destruct (classify_rows _ _ _ csvData) as [st|] eqn:Hrows; simpl; [|done].
  intros [= <-]. apply classify_rows_lengths in Hrows. simpl in Hrows. lia.
Qed.

Lemma count_handle_snoc (h : string) (rows : list Row) (row : Row) :
  count_handle h (rows ++ [row])
  = count_handle h rows + (if decide (handle_of row = h) then 1 else 0).
Proof.
  unfold count_handle. rewrite filter_app, length_app, filter_cons, filter_nil.
  by destruct (decide (handle_of row = h)).
Qed.

Lemma count_handle_app (h : string) (rows rows' : list Row) :
  count_handle h (rows ++ rows') = count_handle h rows + count_handle h rows'.
Proof. unfold count_handle. by rewrite filter_app, length_app. Qed.

Lemma classify_row_classified (st st' : locals) (row : Row) (processed : list Row) :
  classify_row findOne shippingProfile st row = Ok st' ->
  classified st processed ->
  classified st' (processed ++ [row]).
Proof.
  intros Hrow Hst h.
  apply classify_row_inv in Hrow as (row2 & Hget & Hvar & Hprod).
  assert (Hh : handle_of row2 = handle_of row).
  { unfold handle_of. by rewrite Hget. }
  destruct (Hst h) as (Hv & Hp & Hs).
  destruct (Hst (handle_of row)) as (_ & _ & Hs').
  rewrite count_handle_snoc.
  split; [|split].
  - destruct Hvar as [(-> & -> & _)|(-> & -> & _)];
      rewrite count_handle_snoc, Hh; lia.
  - destruct Hprod as [(Hseen & _ & -> & ->)|(Hseen & _ & _ & Hnew)].
    + rewrite Hp. destruct (inherited h) eqn:Hin; [done|].
      destruct (decide (handle_of row = h)) as [<-|_]; [|by rewrite Nat.add_0_r].
      unfold seen_lookup in Hseen. rewrite Hin in Hseen. simpl in Hseen.
      apply bool_decide_eq_true in Hseen. apply Hs' in Hseen; [lia|done].
    + unfold seen_lookup in Hseen. apply orb_false_iff in Hseen as [Hin Hout].
      apply bool_decide_eq_false in Hout.
      assert (Hzero : count_handle (handle_of row) processed = 0).
      { specialize (Hs' Hin). destruct (count_handle (handle_of row) processed); [done|].
        exfalso. apply Hout, Hs'. lia. }
      destruct Hnew as [(-> & -> & _)|(-> & -> & _)];
        rewrite count_handle_snoc, Hh;
        (destruct (decide (handle_of row = h)) as [<-|Hne];
         [rewrite Hin in *; lia | destruct (inherited h); lia]).
  - intros Hin. specialize (Hs Hin).
    destruct Hprod as [(Hseen & -> & _)|(Hseen & -> & _)].
    + destruct (decide (handle_of row = h)) as [<-|_]; [|by rewrite Nat.add_0_r].
      unfold seen_lookup in Hseen. rewrite Hin in Hseen. simpl in Hseen.
      apply bool_decide_eq_true in Hseen. split; [lia|done].
    + unfold seen_lookup in Hseen. apply orb_false_iff in Hseen as [Hin' _].
      unfold seen_mark. rewrite decide_False by (by intros Heq; rewrite Heq in Hin').
      rewrite elem_of_union, elem_of_singleton.
      destruct (decide (handle_of row = h)) as [<-|Hne].
      * split; [lia|auto].
      * rewrite Nat.add_0_r. split; [intros [?|?]; [done|by apply Hs] | intros ?; right; by apply Hs].
Qed.

Lemma classify_rows_classified (rows : list Row) (st st' : locals) (processed : list Row) :
  classify_rows findOne shippingProfile st rows = Ok st' ->
  classified st processed ->
  classified st' (processed ++ rows).
Proof.
  revert st processed. induction rows as [|row rows IH]; intros st processed; simpl.
  - intros [= <-]. by rewrite app_nil_r.
  - destruct (classify_row findOne shippingProfile st row) as [st1|] eqn:Hrow;
      simpl; [|done].
    intros Hrows Hst.
    replace (processed ++ row :: rows) with ((processed ++ [row]) ++ rows)
      by (by rewrite <- app_assoc).
    eapply IH; [done|]. by eapply classify_row_classified.
Qed.

(** X2. Per product handle, classification yields one variant-level operation
    for each row of that handle and, unless the handle is the name of a
    property every object inherits, one product-level operation if the
    handle occurs at all; for an inherited name it yields none. *)
Theorem operations_per_handle (csvData : list Row) (ops : Instructions) (h : string) :
  getImportInstructions findOne shippingProfile csvData = Ok ops ->
  count_handle h (variantsCreate ops) + count_handle h (variantsUpdate ops)
  = count_handle h csvData
  /\ count_handle h (productsCreate ops) + count_handle h (productsUpdate ops)
     = (if inherited h then 0 else Nat.min 1 (count_handle h csvData)).
Proof.
  unfold getImportInstructions.
  destruct (classify_rows _ _ _ csvData) as [st|] eqn:Hrows; simpl; [|done].
  intros [= <-].
  apply (classify_rows_classified _ _ _ []) in Hrows.
  - destruct (Hrows h) as (Hv & Hp & _). auto.
  - intros h'. unfold count_handle. simpl.
    split; [done|]. split; [by destruct (inherited h')|].
    intros _. split; [by intros ?%elem_of_empty | lia].
Qed.

End ClassifierMore.

Section ClassifierErrors.

Import ProductImport.

Variable findOne : string -> option Region.
Variable shippingProfile : value.

Lemma classify_rows_no_update (rows : list Row) (st st' : locals) :
  (forall row, row ∈ rows -> truthy (row_get "product.product.id" row) = false) ->
  classify_rows findOne shippingProfile st rows = Ok st' ->
  productsUpdate (ops st') = productsUpdate (ops st).
Proof.
  revert st. induction rows as [|row rows IH]; intros st Hrows; simpl.
  - by intros [= <-].
  - destruct (classify_row findOne shippingProfile st row) as [st1|] eqn:Hrow;
      simpl; [|done].
    intros Hrest. rewrite (IH st1) by (done || intros; apply Hrows; by right).
    apply classify_row_inv in Hrow as (row2 & _ & _ & Hprod).
    destruct Hprod as [(_ & _ & _ & ->)|(_ & _ & _ & [(_ & -> & _)|(_ & _ & Hid)])];
      try done.
    rewrite Hrows in Hid; [done | by left].
Qed.

(** X3. Rows built by the CSV schema, which maps the [Product id] column to
    [product.id] and never fills [product.product.id], yield no
    product-update operation, whatever their [product.id]. *)
Theorem no_product_update_without_product_product_id
    (csvData : list Row) (ops : Instructions) :
  (forall row, row ∈ csvData -> truthy (row_get "product.product.id" row) = false) ->
  getImportInstructions findOne shippingProfile csvData = Ok ops ->
  productsUpdate ops = [].
Proof.
  unfold getImportInstructions. intros Hrows.
  destruct (classify_rows _ _ _ csvData) as [st|] eqn:Hst; simpl; [|done].
  intros [= <-]. by apply classify_rows_no_update in Hst.
Qed.

Lemma classify_rows_stamped (rows : list Row) (st st' : locals) :
  Forall (fun row => row_get "product.profile_id" row = Some shippingProfile)
         (productsCreate (ops st) ++ productsUpdate (ops st)) ->
  classify_rows findOne shippingProfile st rows = Ok st' ->
  Forall (fun row => row_get "product.profile_id" row = Some shippingProfile)
         (productsCreate (ops st') ++ productsUpdate (ops st')).
Proof.
  revert st. induction rows as [|row rows IH]; intros st Hst; simpl.
  - by intros [= <-].
  - destruct (classify_row findOne shippingProfile st row) as [st1|] eqn:Hrow;
      simpl; [|done].
    apply IH.
    apply classify_row_inv in Hrow as (row2 & _ & _ & Hprod).
    apply Forall_app in Hst as [Hc Hu].
    destruct Hprod as [(_ & _ & -> & ->)|(_ & _ & Hp & [(-> & -> & _)|(-> & -> & _)])];
      rewrite ?Forall_app, ?Forall_singleton; auto.
Qed.

(** X4. Every product-level operation carries the default shipping profile
    under [product.profile_id]. *)
Theorem product_operations_carry_profile
    (csvData : list Row) (ops : Instructions) (row : Row) :
  getImportInstructions findOne shippingProfile csvData = Ok ops ->
  row ∈ productsCreate ops ++ productsUpdate ops ->
  row_get "product.profile_id" row = Some shippingProfile.
Proof.
  unfold getImportInstructions.
  destruct (classify_rows _ _ _ csvData) as [st|] eqn:Hst; simpl; [|done].
  intros [= <-] Hrow.
  apply classify_rows_stamped in Hst; [|by constructor].
  by eapply Forall_forall in Hst.
Qed.

Lemma classify_rows_without_prices (rows : list Row) (st : locals) (row : Row) :
  row ∈ rows ->
  row_get "variant.prices" row = None ->
  exists e, classify_rows findOne shippingProfile st rows = Throw e.
Proof.
  revert st. induction rows as [|row0 rows IH]; intros st Hin Hnone; simpl.
  - by apply elem_of_nil in Hin.
  - apply elem_of_cons in Hin as [<-|Hin].
    + unfold classify_row. rewrite Hnone. simpl. eauto.
    + destruct (classify_row findOne shippingProfile st row0) as [st1|e]; simpl; eauto.
Qed.

(** X5. A row without [variant.prices] (a file without any price column) makes
    the whole classification throw: no batch is returned. *)
Theorem row_without_prices_fails_classification (csvData : list Row) (row : Row) :
  row ∈ csvData ->
  row_get "variant.prices" row = None ->
  exists e, getImportInstructions findOne shippingProfile csvData = Throw e.
Proof.
  intros Hin Hnone. unfold getImportInstructions.
  destruct (classify_rows_without_prices csvData
              {| seenProducts := ∅;
                 ops := {| productsCreate := []; productsUpdate := [];
                           variantsCreate := []; variantsUpdate := [] |} |}
              row Hin Hnone) as [e ->].
  simpl. eauto.
Qed.




End ClassifierErrors.

Lemma every_row_is_one_variant_operation_witness :
  exists ops,
    ProductImport.getImportInstructions sample_findOne sample_profile sample_csvData
    = Ok ops
    /\ length (ProductImport.variantsCreate ops) + length (ProductImport.variantsUpdate ops)
       = length sample_csvData
    /\ length (ProductImport.productsCreate ops) + length (ProductImport.productsUpdate ops)
       <= length sample_csvData.
Proof.
  eexists. split; [vm_compute; reflexivity|].
  apply (every_row_is_one_variant_operation sample_findOne sample_profile).
  vm_compute. reflexivity.
Defined.

Lemma operations_per_handle_witness :
  exists ops,
    ProductImport.getImportInstructions sample_findOne sample_profile sample_csvData
    = Ok ops
    /\ count_handle "shirt" (ProductImport.variantsCreate ops)
       + count_handle "shirt" (ProductImport.variantsUpdate ops)
       = count_handle "shirt" sample_csvData
    /\ count_handle "shirt" (ProductImport.productsCreate ops)
       + count_handle "shirt" (ProductImport.productsUpdate ops)
       = (if inherited "shirt" then 0
          else Nat.min 1 (count_handle "shirt" sample_csvData)).
Proof.
  eexists. split; [vm_compute; reflexivity|].
  apply (operations_per_handle sample_findOne sample_profile sample_csvData _ "shirt").
  vm_compute. reflexivity.
Defined.

Lemma no_product_update_without_product_product_id_witness :
  exists ops,
    (forall row, row ∈ sample_csvData ->
                 truthy (ProductImport.row_get "product.product.id" row) = false)
    /\ ProductImport.getImportInstructions sample_findOne sample_profile sample_csvData
       = Ok ops
    /\ ProductImport.productsUpdate ops = [].
Proof.
  assert (Hrows : forall row, row ∈ sample_csvData ->
            truthy (ProductImport.row_get "product.product.id" row) = false).
  { intros row Hrow. unfold sample_csvData in Hrow.
    repeat (apply elem_of_cons in Hrow as [->|Hrow]; [reflexivity|]).
    by apply elem_of_nil in Hrow. }
  eexists. split; [exact Hrows|]. split; [vm_compute; reflexivity|].
  apply (no_product_update_without_product_product_id sample_findOne sample_profile
           sample_csvData _ Hrows).
  vm_compute. reflexivity.
Defined.

Lemma product_operations_carry_profile_witness :
  exists ops,
    ProductImport.getImportInstructions sample_findOne sample_profile sample_csvData
    = Ok ops
    /\ stamped existing_product_row
       ∈ ProductImport.productsCreate ops ++ ProductImport.productsUpdate ops
    /\ ProductImport.row_get "product.profile_id" (stamped existing_product_row)
       = Some sample_profile.
Proof.
  eexists. split; [vm_compute; reflexivity|].
  assert (Hin : stamped existing_product_row
                ∈ [stamped existing_product_row] ++ []) by (by left).
  split; [exact Hin|].
  eapply (product_operations_carry_profile sample_findOne sample_profile
            sample_csvData);
    [vm_compute; reflexivity | exact Hin].
Defined.

Lemma row_without_prices_fails_classification_witness :
  unpriced_row ∈ [existing_product_row; unpriced_row]
  /\ ProductImport.row_get "variant.prices" unpriced_row = None
  /\ exists e,
       ProductImport.getImportInstructions sample_findOne sample_profile
         [existing_product_row; unpriced_row]
       = Throw e.
Proof.
  assert (Hin : unpriced_row ∈ [existing_product_row; unpriced_row])
    by (right; left).
  split; [exact Hin|]. split; [reflexivity|].
  apply (row_without_prices_fails_classification sample_findOne sample_profile
           [existing_product_row; unpriced_row] unpriced_row Hin).
  reflexivity.
Defined.


(** ** Further properties of the staging store *)

Section StagingMore.

Import ProductImport.

Lemma staging_key_inj (batchJobId : string) (op op' : OperationType) :
  staging_key batchJobId op = staging_key batchJobId op' -> op = op'.
Proof.
  unfold staging_key. intros H.
  apply (append_cancel_l "pij_"), append_cancel_l, (append_cancel_l ":") in H.
  by destruct op, op'.
Qed.

Lemma redis_get_set (now now' : nat) (key key' : string) (rows : list Row)
    (store : gmap string entry) :
  redis_get now' key' (redis_set now key rows store)
  = if decide (key = key')
    then (if decide (now' < now + 60 * 60) then Some rows else None)
    else redis_get now' key' store.
Proof.
  unfold redis_get, redis_set. rewrite lookup_insert.
  by destruct (decide (key = key')).
Qed.

Lemma stage_fold_get
    (now now' : nat) (batchJobId : string) (results : Instructions)
    (op : OperationType) (keys : list OperationType) (store : gmap string entry) :
  getImportDataFromRedis now' batchJobId op
    (fold_left
       (fun store op =>
          match batch op results with
          | [] => store
          | rows => redis_set now (staging_key batchJobId op) rows store
          end)
       keys store)
  = if decide (op ∈ keys /\ batch op results ≠ [])
    then (if decide (now' < now + 60 * 60) then batch op results else [])
    else getImportDataFromRedis now' batchJobId op store.
Proof.
  revert store. induction keys as [|k keys IH]; intros store; cbn [fold_left].
  - assert (Hno : ~ (op ∈ [] /\ batch op results ≠ [])).
    { intros [Hin _]. by apply elem_of_nil in Hin. }
    by rewrite (decide_False _ _ Hno).
  - rewrite IH.
    destruct (decide (op ∈ keys /\ batch op results ≠ [])) as [[Hin Hne]|Hno].
    + assert (Hyes : op ∈ k :: keys /\ batch op results ≠ [])
        by (split; [by right|done]).
      by rewrite (decide_True _ _ Hyes).
    + destruct (decide (k = op)) as [->|Hk].
      * destruct (batch op results) as [|row rows] eqn:Hb.
        -- assert (Hno' : ~ (op ∈ op :: keys /\ @nil Row ≠ [])) by (by intros [_ ?]).
           by rewrite (decide_False _ _ Hno').
        -- assert (Hyes : op ∈ op :: keys /\ row :: rows ≠ [])
             by (split; [by left|done]).
           rewrite (decide_True _ _ Hyes).
           unfold getImportDataFromRedis. rewrite redis_get_set.
           rewrite (decide_True _ _ (eq_refl (staging_key batchJobId op))).
           by destruct (decide (now' < now + 60 * 60)).
      * assert (Hno' : ~ (op ∈ k :: keys /\ batch op results ≠ [])).
        { intros [Hin Hne]. apply elem_of_cons in Hin as [->|Hin]; [done|].
          by apply Hno. }
        rewrite (decide_False _ _ Hno').
        destruct (batch k results) as [|row rows]; [done|].
        unfold getImportDataFromRedis. rewrite redis_get_set.
        assert (Hkey : staging_key batchJobId k ≠ staging_key batchJobId op).
        { intros Heq. by apply staging_key_inj in Heq. }
        by rewrite (decide_False _ _ Hkey).
Qed.

Lemma getImportDataFromRedis_after_set
    (now now' : nat) (batchJobId : string) (results : Instructions)
    (op : OperationType) (store : gmap string entry) :
  getImportDataFromRedis now' batchJobId op
    (setImportDataToRedis now batchJobId results store)
  = match batch op results with
    | [] => getImportDataFromRedis now' batchJobId op store
    | rows => if decide (now' < now + 3600) then rows else []
    end.
Proof.
  unfold setImportDataToRedis. rewrite stage_fold_get.
  assert (Hop : op ∈ results_keys).
  { unfold results_keys. destruct op; set_solver. }
  destruct (batch op results) as [|row rows] eqn:Hb.
  - assert (Hno : ~ (op ∈ results_keys /\ @nil Row ≠ [])) by (by intros [_ ?]).
    by rewrite (decide_False _ _ Hno).
  - assert (Hyes : op ∈ results_keys /\ row :: rows ≠ []) by done.
    by rewrite (decide_True _ _ Hyes).
Qed.

(** X7. What the commit phase reads back after staging: a non-empty batch
    written at [now] is read back unchanged until it expires, 3600 seconds
    later, and as the empty sequence from then on; an empty batch is not
    written, so that the read returns what the store already held under
    that key. *)
Theorem staged_batch_read_back
    (now now' : nat) (batchJobId : string) (results : Instructions)
    (op : OperationType) (store : gmap string entry) :
  getImportDataFromRedis now' batchJobId op
    (setImportDataToRedis now batchJobId results store)
  = match batch op results with
    | [] => getImportDataFromRedis now' batchJobId op store
    | rows => if decide (now' < now + 3600) then rows else []
    end.
Proof. apply getImportDataFromRedis_after_set. Qed.

End StagingMore.

(** ** Further properties of the commit phases *)

Section ApplierMore.

Import ProductImport.

Context {W : Type}.
Variable svc : Services W.
Variable clock : OperationType -> nat.
Variable batchJobId : string.





End ApplierMore.

(** X8. Pre-processing on an empty store followed by a commit that reads
    every batch before it expires: the rows the commit finds are the
    batches of the classification, and their number is the [total] written
    to the job context. *)
Theorem total_is_the_number_of_staged_rows
    (findOne : string -> option ProductImport.Region) (shippingProfile : value)
    (now : nat) (clock : ProductImport.OperationType -> nat) (batchJobId : string)
    (results : list ProductImport.Row)
    (store : gmap string ProductImport.entry) (total : nat) :
  ProductImport.preProcessBatchJob findOne shippingProfile now batchJobId results ∅
  = Ok (store, total) ->
  (forall op, clock op < now + 3600) ->
  exists ops,
    ProductImport.getImportInstructions findOne shippingProfile results = Ok ops
    /\ (forall op, ProductImport.staged clock batchJobId store op
                   = ProductImport.batch op ops)
    /\ length (all_staged clock batchJobId store) = total.
Proof.
  unfold ProductImport.preProcessBatchJob. intros Hpre Hfresh.
  destruct (ProductImport.getImportInstructions findOne shippingProfile results)
    as [ops|] eqn:Hops; simpl in Hpre; [|done].
  injection Hpre as <- <-. exists ops. split; [done|].
  assert (Hstaged : forall op,
            ProductImport.staged clock batchJobId
              (ProductImport.setImportDataToRedis now batchJobId ops ∅) op
            = ProductImport.batch op ops).
  { intros op. unfold ProductImport.staged. rewrite getImportDataFromRedis_after_set.
    destruct (ProductImport.batch op ops) as [|row rows]; [done|].
    by rewrite decide_True by apply Hfresh. }
  split; [done|].
  unfold all_staged. rewrite !Hstaged, !length_app, !length_map.
  unfold ProductImport.ops_total. simpl. lia.
Qed.









Lemma sample_classification :
  ProductImport.getImportInstructions sample_findOne sample_profile sample_csvData
  = Ok sample_ops.
Proof. vm_compute. reflexivity. Qed.

Lemma total_is_the_number_of_staged_rows_witness :
  ProductImport.preProcessBatchJob sample_findOne sample_profile 0 "job_1"
    sample_csvData ∅
  = Ok (ProductImport.setImportDataToRedis 0 "job_1" sample_ops ∅, 4)
  /\ (forall op : ProductImport.OperationType, (fun _ => 1) op < 0 + 3600)
  /\ exists ops,
       ProductImport.getImportInstructions sample_findOne sample_profile sample_csvData
       = Ok ops
       /\ (forall op,
              ProductImport.staged (fun _ => 1) "job_1"
                (ProductImport.setImportDataToRedis 0 "job_1" sample_ops ∅) op
              = ProductImport.batch op ops)
       /\ length (all_staged (fun _ => 1) "job_1"
                    (ProductImport.setImportDataToRedis 0 "job_1" sample_ops ∅))
          = 4.
Proof.
  assert (Hfresh : forall op : ProductImport.OperationType,
            (fun _ => 1) op < 0 + 3600) by (intros op; simpl; lia).
  assert (Hpre : ProductImport.preProcessBatchJob sample_findOne sample_profile 0
                   "job_1" sample_csvData ∅
                 = Ok (ProductImport.setImportDataToRedis 0 "job_1" sample_ops ∅, 4)).
  { unfold ProductImport.preProcessBatchJob. rewrite sample_classification.
    reflexivity. }
  split; [exact Hpre|]. split; [exact Hfresh|].
  apply (total_is_the_number_of_staged_rows sample_findOne sample_profile 0
           (fun _ => 1) "job_1" sample_csvData _ 4 Hpre Hfresh).
Defined.

(** ** Properties of the row transformations *)

Section Transforms.

Import ProductImport.

Lemma starts_with_app (p s : string) : starts_with p (p +:+ s) = true.
Proof. induction p as [|c p IH]; simpl; [done|]. by rewrite bool_decide_eq_true_2. Qed.

Lemma includes_app (p s : string) : includes p (p +:+ s) = true.
Proof.
  pose proof (starts_with_app p s) as Hstart.
  destruct (p +:+ s); simpl; by rewrite Hstart.
Qed.

Lemma split_go_skip (sep a s : string) :
  split_go sep (String.length a) (a +:+ s) = split_go sep 0 s.
Proof.
  induction a as [|c a IH]; simpl; [done | exact IH].
Qed.

Lemma split_go_absent (sep s : string) :
  includes sep s = false -> split_go sep 0 s = [s].
Proof.
  induction s as [|c r IH]; simpl.
  - done.
  - intros [Hstart Hrest]%orb_false_iff. rewrite Hstart.
    by rewrite IH.
Qed.

(** [k.split(fragment)[1]] on a key that starts with the fragment and does
    not contain it again is the rest of the key. *)
Lemma strip_prefix_app (c : ascii) (fragment x : string) :
  includes (String c fragment) x = false ->
  strip_prefix (String c fragment) (String c fragment +:+ x) = x.
Proof.
  intros Hx. unfold strip_prefix, split.
  change (String c fragment +:+ x) with (String c (fragment +:+ x)).
  cbn [split_go].
  change (String c (fragment +:+ x)) with (String c fragment +:+ x).
  rewrite starts_with_app.
  replace (String.length (String c fragment) - 1) with (String.length fragment)
    by (simpl; lia).
  by rewrite split_go_skip, split_go_absent.
Qed.

Lemma row_get_filter (Q : string * value -> Prop) `{forall kv, Decision (Q kv)}
    (k : string) (data : list (string * value)) :
  (forall v, Q (k, v)) -> row_get k (filter Q data) = row_get k data.
Proof.
  intros Hk. induction data as [|[k' v] data IH]; [done|].
  rewrite filter_cons. simpl.
  destruct (decide (Q (k', v))) as [Hq|Hq]; simpl.
  - by destruct (decide (k' = k)).
  - rewrite decide_False; [done|]. intros ->. by apply Hq.
Qed.

Lemma row_get_None (k : string) (data : Row) :
  k ∉ map fst data -> row_get k data = None.
Proof.
  induction data as [|[k' v] data IH]; simpl; [done|].
  intros [Hne Hk]%not_elem_of_cons. rewrite decide_False by congruence. auto.
Qed.

Lemma NoDup_keys_filter (Q : string * value -> Prop) `{forall kv, Decision (Q kv)}
    (data : list (string * value)) :
  NoDup (map fst data) -> NoDup (map fst (filter Q data)).
Proof.
  induction data as [|[k v] data IH]; simpl; [done|].
  intros [Hk Hnd]%NoDup_cons. rewrite filter_cons.
  destruct (decide (Q (k, v))); simpl; [|auto].
  apply NoDup_cons. split; [|auto].
  intros Hin. apply Hk.
  apply list_elem_of_fmap in Hin as ([k' v'] & -> & Hin).
  apply list_elem_of_filter in Hin as [_ Hin].
  apply list_elem_of_fmap. by exists (k', v').
Qed.

Lemma strip_fold_get (c : ascii) (fragment x : string) (picked ret : Row) :
  NoDup (map fst picked) ->
  (forall k, k ∈ map fst picked ->
             exists y, k = String c fragment +:+ y
                       /\ includes (String c fragment) y = false) ->
  row_get x
    (fold_left (fun ret kv => row_set (strip_prefix (String c fragment) kv.1) kv.2 ret)
               picked ret)
  = match row_get (String c fragment +:+ x) picked with
    | Some v => Some v
    | None => row_get x ret
    end.
Proof.
  revert ret. induction picked as [|[k v] picked IH]; intros ret Hnd Hkeys; [done|].
  apply NoDup_cons in Hnd as [Hk Hnd]. cbn [fold_left].
  rewrite IH; [|done|intros k' Hk'; apply Hkeys; by right].
  destruct (Hkeys k (ltac:(by left))) as (y & -> & Hy).
  cbn [row_get fst snd]. rewrite strip_prefix_app by done.
  destruct (decide (String c fragment +:+ y = String c fragment +:+ x)) as [Heq|Hne].
  - apply append_cancel_l in Heq as ->.
    rewrite (row_get_None _ picked) by done. apply row_get_set_eq.
  - destruct (row_get (String c fragment +:+ x) picked); [done|].
    apply row_get_set_ne. by intros ->.
Qed.

Lemma picked_fold_get (c : ascii) (fragment x : string) (data : Row) :
  NoDup (map fst data) ->
  prefixed (String c fragment) data ->
  row_get x
    (fold_left (fun ret kv => row_set (strip_prefix (String c fragment) kv.1) kv.2 ret)
               (pickObjectPropsByRegex data (String c fragment)) [])
  = row_get (String c fragment +:+ x) data.
Proof.
  intros Hnd Hpre. unfold pickObjectPropsByRegex, Row in *.
  rewrite strip_fold_get.
  - rewrite row_get_filter by (intros v; apply includes_app).
    by destruct (row_get (String c fragment +:+ x) data).
  - by apply NoDup_keys_filter.
  - intros k Hk. apply list_elem_of_fmap in Hk as ([k' v'] & -> & Hin).
    apply list_elem_of_filter in Hin as [Hinc Hin].
    apply Hpre; [|done]. apply list_elem_of_fmap. by exists (k', v').
Qed.

(** X13. On a row with distinct keys in which [product.] occurs only as a
    prefix, [transformProductData] hands each [product.<field>] over
    under the key [<field>], and nothing else. *)
Theorem transformProductData_strips_prefix (data : Row) (x : string) :
  NoDup (map fst data) ->
  prefixed "product." data ->
  row_get x (transformProductData data) = row_get ("product." +:+ x) data.
Proof. intros Hnd Hpre. by apply (picked_fold_get "p" "roduct."). Qed.

Lemma row_get_set_opt_eq (k : string) (v : option value) (row : Row) :
  row_get k (row_set_opt k v row) = v.
Proof.
  destruct v as [v|]; simpl; [apply row_get_set_eq|].
  unfold Row in *. induction row as [|[k' v'] row IH]; [done|].
  rewrite filter_cons. simpl. destruct (decide (k' ≠ k)) as [Hne|Heq]; simpl; [|done].
  by rewrite decide_False.
Qed.

Lemma row_get_set_opt_ne (k k' : string) (v : option value) (row : Row) :
  k ≠ k' -> row_get k' (row_set_opt k v row) = row_get k' row.
Proof.
  intros Hne. destruct v as [v|]; simpl; [by apply row_get_set_ne|].
  unfold Row in *. by apply row_get_filter.
Qed.

(** X14. [transformVariantData] hands each [variant.<field>] over under the key
    [<field>], and always carries the product handle and the product
    options of the row, under their full keys. *)
Theorem transformVariantData_fields (data : Row) (x : string) :
  NoDup (map fst data) ->
  prefixed "variant." data ->
  row_get "product.handle" (transformVariantData data) = row_get "product.handle" data
  /\ row_get "product.options" (transformVariantData data)
     = row_get "product.options" data
  /\ (x ≠ "product.handle" -> x ≠ "product.options" ->
      row_get x (transformVariantData data) = row_get ("variant." +:+ x) data).
Proof.
  intros Hnd Hpre. unfold transformVariantData. split; [|split].
  - by rewrite row_get_set_opt_ne, row_get_set_opt_eq.
  - by rewrite row_get_set_opt_eq.
  - intros Hh Ho. rewrite !row_get_set_opt_ne by done.
    by apply (picked_fold_get "v" "ariant.").
Qed.

End Transforms.

Lemma schema_row_keys : NoDup (map fst schema_row).
Proof. refine (bool_decide_unpack _ _). vm_compute. exact I. Qed.

Lemma schema_row_prefixed (fragment : string) :
  fragment = "product." \/ fragment = "variant." -> prefixed fragment schema_row.
Proof.
  intros [-> | ->] k Hk Hinc; simpl in Hk;
    repeat (apply elem_of_cons in Hk as [->|Hk]);
    try (by apply elem_of_nil in Hk);
    first [ by (vm_compute in Hinc; discriminate)
          | eexists; split; reflexivity ].
Qed.

Lemma transformProductData_strips_prefix_witness :
  NoDup (map fst schema_row)
  /\ prefixed "product." schema_row
  /\ ProductImport.row_get "collection.title" (ProductImport.transformProductData schema_row)
     = ProductImport.row_get ("product." +:+ "collection.title") schema_row.
Proof.
  split; [exact schema_row_keys|].
  split; [exact (schema_row_prefixed "product." (or_introl eq_refl))|].
  exact (transformProductData_strips_prefix schema_row "collection.title"
           schema_row_keys (schema_row_prefixed "product." (or_introl eq_refl))).
Defined.

Lemma transformVariantData_fields_witness :
  NoDup (map fst schema_row)
  /\ prefixed "variant." schema_row
  /\ ProductImport.row_get "product.handle" (ProductImport.transformVariantData schema_row)
     = ProductImport.row_get "product.handle" schema_row
  /\ ProductImport.row_get "product.options" (ProductImport.transformVariantData schema_row)
     = ProductImport.row_get "product.options" schema_row
  /\ ("sku" ≠ "product.handle" -> "sku" ≠ "product.options" ->
      ProductImport.row_get "sku" (ProductImport.transformVariantData schema_row)
      = ProductImport.row_get ("variant." +:+ "sku") schema_row).
Proof.
  split; [exact schema_row_keys|].
  split; [exact (schema_row_prefixed "variant." (or_intror eq_refl))|].
  exact (transformVariantData_fields schema_row "sku"
           schema_row_keys (schema_row_prefixed "variant." (or_intror eq_refl))).
Defined.

Example transformProductData_schema_row :
  ProductImport.transformProductData schema_row
  = [("id", VStr "prod_01"); ("handle", VStr "shirt"); ("title", VStr "Shirt");
     ("collection.title", VStr "Summer");
     ("options", VArr [EObj [("title", "Size")]])].
Proof. vm_compute. reflexivity. Qed.

(** ** Further properties of the shape discovery *)

Section DiscovererMore.

Import ProductExport.

Lemma scan_products_app (acc : scan) (l l' : list Product) :
  scan_products acc (l ++ l') = scan_products (scan_products acc l) l'.
Proof. unfold scan_products. apply fold_left_app. Qed.

Lemma max_list_with_le {A : Type} (f : A -> nat) (l : list A) (x : A) :
  x ∈ l -> f x <= max_list_with f l.
Proof.
  induction l as [|y l IH]; [by intros ?%elem_of_nil|].
  intros [->|Hin]%elem_of_cons; simpl; [lia|]. specialize (IH Hin). lia.
Qed.

Lemma drop_take_length {A : Type} (n : nat) (l : list A) :
  drop (length (firstn n l)) l = drop n l.
Proof.
  rewrite length_take. destruct (decide (n <= length l)).
  - by rewrite Nat.min_l.
  - rewrite Nat.min_r by lia. by rewrite !drop_ge by lia.
Qed.

Variable dataset : list Product.

(** From an empty page on, the loop scans the rest of the dataset. *)
Lemma discover_loop_dataset (fuel offset : nat) (acc : scan) :
  length dataset - offset <= fuel ->
  discover_loop (dataset_service dataset) fuel (length dataset) offset [] acc
  = Some (scan_products acc (drop offset dataset)).
Proof.
  revert offset acc. induction fuel as [|fuel IH]; intros offset acc Hfuel; simpl.
  - destruct (decide (offset < length dataset)); [lia|].
    by rewrite drop_ge by lia.
  - destruct (decide (offset < length dataset)) as [Hlt|Hge].
    + unfold slice. simpl.
      set (page := firstn BATCH_SIZE (drop offset dataset)).
      assert (Hlen : 0 < length page).
      { unfold page, BATCH_SIZE. rewrite length_take, length_drop. lia. }
      rewrite IH by lia.
      f_equal. rewrite <- scan_products_app. f_equal.
      rewrite <- drop_drop. unfold page. rewrite drop_take_length.
      apply take_drop.
    + by rewrite drop_ge by lia.
Qed.

Lemma discover_loop_first_page (fuel offset : nat) (page : list Product) (acc : scan) :
  page ≠ [] ->
  offset < length dataset ->
  length dataset - (offset + length page) <= fuel ->
  discover_loop (dataset_service dataset) (S fuel) (length dataset) offset page acc
  = Some (scan_products (scan_products acc page)
                        (drop (offset + length page) dataset)).
Proof.
  intros Hpage Hlt Hfuel. destruct page as [|p page]; [done|].
  cbn [discover_loop]. rewrite (decide_True _ _ Hlt).
  by apply discover_loop_dataset.
Qed.

(** X15. Over a listing service that pages through a fixed dataset,
    [preProcessBatchJob] ends (given fuel for one iteration per product) and
    the shape it stores is the shape of the whole dataset from the
    configured [skip] on: [take] bounds the first page only. *)
Theorem preProcessBatchJob_scans_the_dataset (list_config : FindProductConfig) (fuel : nat) :
  length dataset <= fuel ->
  preProcessBatchJob (dataset_service dataset) list_config fuel
  = Some (discoverShape (drop (or_default (skip list_config) 0) dataset)).
Proof.
  intros Hfuel. unfold preProcessBatchJob, discoverShape.
  cbn [listAndCount dataset_service].
  set (s := or_default (skip list_config) 0).
  set (page := slice list_config dataset).
  assert (Hsplit : page ++ drop (s + length page) dataset = drop s dataset).
  { unfold page, slice. fold s. destruct (take list_config) as [t|].
    - rewrite <- drop_drop, drop_take_length. apply take_drop.
    - rewrite (drop_ge dataset (s + length (drop s dataset)))
        by (rewrite length_drop; lia).
      by rewrite app_nil_r. }
  assert (Hloop : discover_loop (dataset_service dataset) fuel (length dataset) s
                    page scan_start
                  = Some (scan_products scan_start (drop s dataset))).
  { destruct (decide (page = [])) as [Hnil|Hpage].
    - rewrite Hnil. apply discover_loop_dataset. lia.
    - assert (Hlt : s < length dataset).
      { destruct (decide (s < length dataset)); [done|].
        exfalso. apply Hpage. unfold page, slice. fold s.
        rewrite drop_ge by lia. by destruct (take list_config); rewrite ?take_nil. }
      assert (Hlen : 0 < length page).
      { destruct (length page) eqn:E; [|lia]. by apply nil_length_inv in E. }
      destruct fuel as [|fuel]; [lia|].
      rewrite discover_loop_first_page by (done || lia).
      by rewrite <- scan_products_app, Hsplit. }
  by rewrite Hloop.
Qed.

(** X16. The discovered shape has room for every product scanned: no product
    has more options or images than the shape has slots, and the key of
    every variant price is among the shape's price keys. *)
Theorem discoverShape_covers_every_product (products : list Product) (product : Product) :
  product ∈ products ->
  length (options product) <= dynamicOptionColumnCount (discoverShape products)
  /\ length (images product) <= dynamicImageColumnCount (discoverShape products)
  /\ forall variant price,
       variant ∈ variants product ->
       price ∈ prices variant ->
       price_data price ∈ shape_prices (discoverShape products).
Proof.
  intros Hin. unfold discoverShape. simpl.
  destruct (scan_products_spec scan_start products) as (Ho & Hi & Hk & _).
  rewrite Ho, Hi. simpl.
  split; [|split].
  - apply (max_list_with_le (fun p => length (options p))) in Hin. lia.
  - apply (max_list_with_le (fun p => length (images p))) in Hin. lia.
  - intros variant price Hv Hp. apply Hk. right. exists product. split; [done|].
    unfold product_price_keys. apply list_elem_of_In, in_flat_map.
    exists variant. split; [by apply list_elem_of_In|].
    apply in_map. by apply list_elem_of_In.
Qed.

End DiscovererMore.

(** ** Further properties of the streaming writer *)

Section WriterMore.

Import ProductExport.

Variable dataset : list Product.
Variable status_after_update : nat -> BatchJobStatus.
Variable fileKey : string.

Hypothesis never_canceled : forall n, status_after_update n ≠ CANCELED.

Lemma written_app (evs evs' : list event) :
  written (evs ++ evs') = written evs ++ written evs'.
Proof. induction evs as [|[] evs IH]; simpl; by rewrite ?IH. Qed.

Lemma written_writes (lines : list string) : written (map Write lines) = lines.
Proof. induction lines as [|line lines IH]; simpl; by rewrite ?IH. Qed.

Lemma write_loop_dataset
    (columns : Columns) (limit fuel offset advancementCount n : nat)
    (current : option ExportResult) :
  0 < limit ->
  length dataset - offset <= fuel ->
  let pages :=
    write_loop (dataset_service dataset) status_after_update fileKey columns
      fuel (length dataset) limit offset advancementCount n [] current in
  run_exit pages = Completed
  /\ written (events pages)
     = flat_map (buildProductVariantLines columns) (drop offset dataset)
  /\ job_result pages
     = (if decide (offset < length dataset)
        then Some (result_at fileKey (length dataset)
                     (advancementCount + (length dataset - offset)))
        else current).
Proof.
  intros Hlimit. revert offset advancementCount n current.
  induction fuel as [|fuel IH]; intros offset advancementCount n current Hfuel;
    cbn [write_loop].
  - destruct (decide (offset < length dataset)); [lia|].
    simpl. by rewrite drop_ge by lia.
  - destruct (decide (offset < length dataset)) as [Hlt|Hge];
      [|simpl; by rewrite drop_ge by lia].
    cbn [list_ dataset_service]. unfold slice. cbn [skip take or_default].
    set (page := firstn limit (drop offset dataset)).
    assert (Hlen : length page = Nat.min limit (length dataset - offset)).
    { unfold page. by rewrite length_take, length_drop. }
    assert (Hsplit : page ++ drop (offset + length page) dataset = drop offset dataset).
    { rewrite <- drop_drop. unfold page. rewrite drop_take_length. apply take_drop. }
    rewrite (decide_False _ _ (never_canceled n)).
    destruct (IH (offset + length page) (advancementCount + length page) (S n)
                 (Some {| file_key := fileKey; count := length dataset;
                          advancement_count := advancementCount + length page;
                          progress := (advancementCount + length page,
                                       length dataset) |}))
      as (Hexit & Hwritten & Hresult); [lia|].
    cbn [events job_result run_exit].
    split; [done|]. split.
    + rewrite written_app, written_writes. cbn [written]. rewrite Hwritten.
      by rewrite <- flat_map_app, Hsplit.
    + rewrite Hresult. unfold result_at.
      destruct (decide (offset + length page < length dataset)).
      * by replace (advancementCount + length page
                    + (length dataset - (offset + length page)))
          with (advancementCount + (length dataset - offset)) by lia.
      * by replace (advancementCount + length page)
          with (advancementCount + (length dataset - offset)) by lia.
Qed.

Lemma write_loop_first_page
    (columns : Columns) (limit fuel offset advancementCount n : nat)
    (current : option ExportResult) :
  write_loop (dataset_service dataset) status_after_update fileKey columns
    fuel (length dataset) limit offset advancementCount n
    (slice {| skip := Some offset; take := Some limit |} dataset) current
  = write_loop (dataset_service dataset) status_after_update fileKey columns
      fuel (length dataset) limit offset advancementCount n [] current.
Proof.
  destruct fuel as [|fuel]; cbn [write_loop]; [done|].
  destruct (decide (offset < length dataset)); [|done].
  cbn [list_ dataset_service].
  by destruct (slice {| skip := Some offset; take := Some limit |} dataset).
Qed.

(** X17. Over a listing service that pages through a fixed dataset, an export
    that is never canceled and whose page size is not 0 ends as completed
    (given fuel for one iteration per product); it writes the header and then
    the lines of every product from [skip] plus the advancement already
    recorded on, whatever [take] is; and, if there was a product left to
    write, the job result it leaves counts every product as advanced. *)
Theorem export_writes_every_product
    (columnDescriptors : Columns) (fuel : nat) (batchJob : ProductExportBatchJob) :
  take (context_list_config batchJob) ≠ Some 0 ->
  length dataset <= fuel ->
  let run :=
    processJob (dataset_service dataset) status_after_update fileKey
      columnDescriptors fuel batchJob in
  let advanced := from_option advancement_count 0 (result batchJob) in
  let offset := or_default (skip (context_list_config batchJob)) 0 + advanced in
  run_exit run = Completed
  /\ written (events run)
     = (buildHeader (context_shape batchJob) columnDescriptors).1
       :: flat_map
            (buildProductVariantLines
               (buildHeader (context_shape batchJob) columnDescriptors).2)
            (drop offset dataset)
  /\ job_result run
     = (if decide (offset < length dataset)
        then Some (result_at fileKey (length dataset)
                     (advanced + (length dataset - offset)))
        else result batchJob).
Proof.
  intros Htake Hfuel. unfold processJob.
  destruct (buildHeader (context_shape batchJob) columnDescriptors) as [header cols].
  cbn [listAndCount dataset_service fst snd].
  rewrite write_loop_first_page.
  assert (Hlimit : 0 < or_default (take (context_list_config batchJob)) BATCH_SIZE).
  { destruct (take (context_list_config batchJob)) as [[|t]|]; simpl;
      [done | lia | unfold BATCH_SIZE; lia]. }
  destruct (write_loop_dataset cols _ fuel
              (or_default (skip (context_list_config batchJob)) 0
               + from_option advancement_count 0 (result batchJob))
              (from_option advancement_count 0 (result batchJob)) 0
              (result batchJob) Hlimit ltac:(lia))
    as (Hexit & Hwritten & Hresult).
  cbn [events job_result run_exit written].
  by rewrite Hexit, Hwritten, Hresult.
Qed.



End WriterMore.

(** ** Further properties of the header *)

Section HeaderMore.

Import ProductExport.

Lemma columns_set_names
    (k : string) (d : ProductExportColumnSchemaDescriptor) (columns : Columns) :
  map fst (columns_set k d columns) = names_set (map fst columns) k.
Proof.
  unfold names_set. induction columns as [|[k' d'] columns IH];
    cbn [columns_set map fst].
  - by rewrite (decide_False _ _ (not_elem_of_nil k)).
  - destruct (decide (k' = k)) as [->|Hne]; cbn [map fst].
    + assert (Hin : k ∈ k :: map fst columns) by (by left).
      by rewrite (decide_True _ _ Hin).
    + rewrite IH. destruct (decide (k ∈ map fst columns)) as [Hin|Hout].
      * assert (Hin' : k ∈ k' :: map fst columns) by (by right).
        by rewrite (decide_True _ _ Hin').
      * assert (Hout' : k ∉ k' :: map fst columns).
        { intros [->|?]%elem_of_cons; done. }
        by rewrite (decide_False _ _ Hout').
Qed.

Lemma fold_columns_names_set {A : Type}
    (f : Columns -> A -> Columns) (names : A -> list string) :
  (forall columns a,
      map fst (f columns a) = fold_left names_set (names a) (map fst columns)) ->
  forall (items : list A) (columns : Columns),
    map fst (fold_left f items columns)
    = fold_left names_set (flat_map names items) (map fst columns).
Proof.
  intros Hf items. induction items as [|a items IH]; intros columns; simpl; [done|].
  by rewrite IH, Hf, fold_left_app.
Qed.

Lemma append_price_names_set (columns : Columns) (priceData : ProductExportPriceData) :
  map fst (append_price columns priceData)
  = fold_left names_set (price_column_names priceData) (map fst columns).
Proof.
  unfold append_price, price_column_names.
  destruct (price_currency_code priceData) as [code|];
    [destruct (truthy_str code)|];
    destruct (price_region priceData) as [r|]; simpl;
    by rewrite ?columns_set_names.
Qed.

(** The column names after [buildHeader], whatever the descriptor map
    holds already: each dynamic column name of the shape, in order, goes
    last if it is new and stays where it is otherwise. *)
Lemma extend_columns_names (shape : option Shape) (columns : Columns) :
  map fst (extend_columns shape columns)
  = fold_left names_set (shape_column_names shape) (map fst columns).
Proof.
  unfold extend_columns, appendImagesDescriptors, appendOptionsDescriptors,
    appendMoneyAmountDescriptors.
  rewrite (fold_columns_names_set _ image_column_names)
    by (intros; simpl; by rewrite columns_set_names).
  rewrite (fold_columns_names_set _ option_column_names)
    by (intros; simpl; by rewrite !columns_set_names).
  rewrite (fold_columns_names_set _ price_column_names)
    by apply append_price_names_set.
  destruct shape as [shape|]; simpl; [|done].
  unfold dynamic_column_names. by rewrite !fold_left_app.
Qed.

Lemma names_set_prefix (ks names : list string) :
  names `prefix_of` fold_left names_set ks names.
Proof.
  revert names. induction ks as [|k ks IH]; intros names; simpl; [done|].
  etrans; [|apply IH]. unfold names_set.
  destruct (decide (k ∈ names)); [done|]. by apply prefix_app_r.
Qed.

Lemma names_set_present (ks names : list string) :
  (forall k, k ∈ ks -> k ∈ names) -> fold_left names_set ks names = names.
Proof.
  revert names. induction ks as [|k ks IH]; intros names Hks; simpl; [done|].
  unfold names_set at 2. rewrite decide_True by (apply Hks; by left).
  apply IH. intros k' Hk'. apply Hks. by right.
Qed.

Lemma names_set_elem_of (ks names : list string) (k : string) :
  k ∈ ks -> k ∈ fold_left names_set ks names.
Proof.
  revert names. induction ks as [|k' ks IH]; intros names; [by intros ?%elem_of_nil|].
  intros [->|Hin]%elem_of_cons; simpl; [|by apply IH].
  destruct (names_set_prefix ks (names_set names k')) as [rest ->].
  apply elem_of_app. left. unfold names_set.
  destruct (decide (k' ∈ names)); [done|]. apply elem_of_app. right. by left.
Qed.

(** X19. The descriptor map is shared by all builds.  [buildHeader] never
    removes or moves a column that is already registered: the names before
    are a prefix of the names after; and building again for the same shape
    registers nothing new, so the header line is the same. *)
Theorem buildHeader_keeps_registered_columns (shape : option Shape) (columns : Columns) :
  map fst columns `prefix_of` map fst (buildHeader shape columns).2
  /\ map fst (buildHeader shape (buildHeader shape columns).2).2
     = map fst (buildHeader shape columns).2
  /\ (buildHeader shape (buildHeader shape columns).2).1
     = (buildHeader shape columns).1.
Proof.
  unfold buildHeader. cbn [fst snd].
  assert (Hagain : map fst (extend_columns shape (extend_columns shape columns))
                   = map fst (extend_columns shape columns)).
  { rewrite (extend_columns_names shape (extend_columns shape columns)).
    apply names_set_present. intros k Hk.
    rewrite extend_columns_names. by apply names_set_elem_of. }
  split; [|split].
  - rewrite extend_columns_names. apply names_set_prefix.
  - done.
  - by rewrite Hagain.
Qed.

(** X20. For a price key that has a region, the column named by the currency
    code and the column named by the region show the same amount for every
    variant. *)
Theorem region_key_columns_agree
    (priceData : ProductExportPriceData) (code : string) (variant : ProductVariant) :
  is_Some (price_region priceData) ->
  currency_accessor code priceData variant = region_accessor priceData variant.
Proof.
  intros [r Hr]. unfold currency_accessor, region_accessor. f_equal.
  induction (prices variant) as [|variantPrice l IH]; [done|].
  cbn [List.find]. rewrite IH.
  replace (match currency_code variantPrice with
           | Some c =>
               if truthy_str c
               then negb (bool_decide (is_Some (price_region priceData)))
                    && bool_decide (toLowerCase c = toLowerCase code)
               else false
           | None => false
           end) with false.
  2:{ rewrite Hr. destruct (currency_code variantPrice) as [c|]; [|done].
      destruct (truthy_str c); [|done].
      by rewrite bool_decide_eq_true_2 by eauto. }
  destruct (region variantPrice); [done|].
  by rewrite Hr, bool_decide_eq_false_2.
Qed.

End HeaderMore.

Lemma preProcessBatchJob_scans_the_dataset_witness :
  length [shirt; hat; scarf] <= 3
  /\ ProductExport.preProcessBatchJob (dataset_service [shirt; hat; scarf])
       {| ProductExport.skip := Some 1; ProductExport.take := Some 1 |} 3
     = Some (ProductExport.discoverShape
               (drop (ProductExport.or_default (Some 1) 0) [shirt; hat; scarf])).
Proof.
  assert (Hfuel : length [shirt; hat; scarf] <= 3) by (simpl; lia).
  split; [exact Hfuel|].
  exact (preProcessBatchJob_scans_the_dataset [shirt; hat; scarf]
           {| ProductExport.skip := Some 1; ProductExport.take := Some 1 |} 3 Hfuel).
Defined.

Lemma discoverShape_covers_every_product_witness :
  shirt ∈ [shirt; hat; scarf]
  /\ length (ProductExport.options shirt)
     <= ProductExport.dynamicOptionColumnCount
          (ProductExport.discoverShape [shirt; hat; scarf])
  /\ length (ProductExport.images shirt)
     <= ProductExport.dynamicImageColumnCount
          (ProductExport.discoverShape [shirt; hat; scarf])
  /\ forall variant price,
       variant ∈ ProductExport.variants shirt ->
       price ∈ ProductExport.prices variant ->
       ProductExport.price_data price
       ∈ ProductExport.shape_prices (ProductExport.discoverShape [shirt; hat; scarf]).
Proof.
  assert (Hin : shirt ∈ [shirt; hat; scarf]) by (by left).
  split; [exact Hin|].
  exact (discoverShape_covers_every_product [shirt; hat; scarf] shirt Hin).
Defined.

Lemma always_processing_never_canceled :
  forall n, always_processing n ≠ ProductExport.CANCELED.
Proof. intros n. discriminate. Qed.

Lemma export_writes_every_product_witness :
  let run :=
    ProductExport.processJob (dataset_service [shirt; hat; scarf]) always_processing
      "exports/products.csv" sample_columns 3 resumed_export_job in
  ProductExport.take (ProductExport.context_list_config resumed_export_job) ≠ Some 0
  /\ length [shirt; hat; scarf] <= 3
  /\ written (ProductExport.events run)
     = ["Product Handle;Variant SKU;Price DKK ;Price EUR (reg_fr);Price france (reg_fr);Option 1 Name;Option 1 Value;Image 1 Url"
          +:+ ProductExport.NEWLINE_;
        "hat;hat-1;120;;;;;hat.png" +:+ ProductExport.NEWLINE_;
        "scarf;scarf-1;;;;;;" +:+ ProductExport.NEWLINE_]
  /\ ProductExport.run_exit run = ProductExport.Completed
  /\ written (ProductExport.events run)
     = (ProductExport.buildHeader
          (ProductExport.context_shape resumed_export_job) sample_columns).1
       :: flat_map
            (ProductExport.buildProductVariantLines
               (ProductExport.buildHeader
                  (ProductExport.context_shape resumed_export_job) sample_columns).2)
            (drop (ProductExport.or_default None 0 + 1) [shirt; hat; scarf])
  /\ ProductExport.job_result run
     = (if decide (ProductExport.or_default None 0 + 1 < length [shirt; hat; scarf])
        then Some (result_at "exports/products.csv" (length [shirt; hat; scarf])
                     (1 + (length [shirt; hat; scarf]
                           - (ProductExport.or_default None 0 + 1))))
        else ProductExport.result resumed_export_job).
Proof.
  intros run.
  assert (Htake : ProductExport.take
                    (ProductExport.context_list_config resumed_export_job) ≠ Some 0)
    by discriminate.
  assert (Hfuel : length [shirt; hat; scarf] <= 3) by (simpl; lia).
  split; [exact Htake|]. split; [exact Hfuel|].
  split; [vm_compute; reflexivity|].
  exact (export_writes_every_product [shirt; hat; scarf] always_processing
           "exports/products.csv" always_processing_never_canceled
           sample_columns 3 resumed_export_job Htake Hfuel).
Defined.


Lemma region_key_columns_agree_witness :
  is_Some (ProductExport.price_region france_key)
  /\ ProductExport.currency_accessor "eur" france_key
       {| ProductExport.sku := "shirt-s";
          ProductExport.variant_options := [];
          ProductExport.prices := [dkk 110; in_france 15] |}
     = ProductExport.region_accessor france_key
         {| ProductExport.sku := "shirt-s";
            ProductExport.variant_options := [];
            ProductExport.prices := [dkk 110; in_france 15] |}.
Proof.
  assert (Hr : is_Some (ProductExport.price_region france_key)) by (by eexists).
  split; [exact Hr|].
  exact (region_key_columns_agree france_key "eur" _ Hr).
Defined.

Example region_columns_of_the_sample :
  ProductExport.region_accessor france_key
    {| ProductExport.sku := "shirt-s";
       ProductExport.variant_options := [];
       ProductExport.prices := [dkk 110; in_france 15] |}
  = "15".
Proof. vm_compute. reflexivity. Qed.

(** ** Properties of the other schema columns *)

Section SchemaMore.

Import ProductImport.







Lemma split_go_nonempty (sep : string) (skip : nat) (s : string) :
  split_go sep skip s ≠ [].
Proof.
  revert skip. induction s as [|c r IH]; intros skip; simpl; [done|].
  destruct skip; [|apply IH].
  destruct (starts_with sep (String c r)); [done|].
  by destruct (split_go sep 0 r).
Qed.

Lemma join_cons (sep s : string) (l : list string) :
  l ≠ [] -> join sep (s :: l) = s +:+ sep +:+ join sep l.
Proof. by destruct l. Qed.

Lemma join_split_comma (s : string) : join "," (split_go "," 0 s) = s.
Proof.
  induction s as [|c r IH]; [done|].
  cbn [split_go starts_with]. destruct (bool_decide ("," = c)%char) eqn:Hc.
  - apply bool_decide_eq_true in Hc as <-. cbn [andb String.length Nat.sub].
    rewrite join_cons by apply split_go_nonempty. by rewrite IH.
  - cbn [andb]. pose proof (split_go_nonempty "," 0 r) as Hne.
    destruct (split_go "," 0 r) as [|h t]; [done|].
    cbn [cons_head]. destruct t as [|h' t].
    + simpl in *. by rewrite IH.
    + rewrite join_cons by done. rewrite join_cons in IH by done.
      by rewrite <- IH.
Qed.

Lemma split_comma_free (s tag : string) :
  tag ∈ split_go "," 0 s -> includes "," tag = false.
Proof.
  revert tag. induction s as [|c r IH]; intros tag.
  - by intros ->%list_elem_of_singleton.
  - cbn [split_go starts_with]. destruct (bool_decide ("," = c)%char) eqn:Hc.
    + cbn [andb String.length Nat.sub].
      intros [->|Hin]%elem_of_cons; [done|by apply IH].
    + cbn [andb]. pose proof (split_go_nonempty "," 0 r) as Hne.
      destruct (split_go "," 0 r) as [|h t]; [done|].
      cbn [cons_head]. intros [->|Hin]%elem_of_cons.
      * simpl. rewrite Hc. simpl. apply IH. by left.
      * apply IH. by right.
Qed.

(** X23. The [Product Tags] cell is cut at its commas into one tag per piece:
    the tags joined by commas give the cell back, no tag contains a comma,
    and an empty cell gives one tag with the empty value. *)
Theorem transform_ProductTags_cuts_at_commas (cell : string) :
  exists tags,
    transform_ProductTags cell = VArr (map (fun v => EObj [("value", v)]) tags)
    /\ join "," tags = cell
    /\ tags ≠ []
    /\ forall tag, tag ∈ tags -> includes "," tag = false.
Proof.
  exists (split "," cell). unfold transform_ProductTags, split.
  split; [done|]. split; [apply join_split_comma|].
  split; [apply split_go_nonempty|]. apply split_comma_free.
Qed.

End SchemaMore.


(** ** Properties of the variant phases *)

Section VariantPhases.

Import ProductImport.

Context {W : Type}.
Variable svc : Services W.

Lemma find_None {A : Type} (f : A -> bool) (l : list A) :
  (forall x, x ∈ l -> f x = false) -> List.find f l = None.
Proof.
  induction l as [|x l IH]; intros Hl; simpl; [done|].
  rewrite (Hl x) by (by left). apply IH. intros y Hy. apply Hl. by right.
Qed.

(** X24. When [createVariants] resolves the option identifiers of a row, they
    are aligned with the row's parsed product options: the [i]-th
    identifier is that of a product option whose title is the [i]-th parsed
    title. *)
Theorem option_ids_are_aligned
    (product : Product) (parsed : list elem) (optionIds : list string) :
  option_ids (Some product) (Some (VArr parsed)) = Some optionIds ->
  Forall2
    (fun variantOption optionId =>
       exists created,
         created ∈ product_options product
         /\ elem_prop "title" variantOption = Some (option_title created)
         /\ optionId = option_id created)
    parsed optionIds.
Proof.
  unfold option_ids. intros Hids%mapM_Some_1.
  eapply Forall2_impl; [exact Hids|].
  intros variantOption optionId Hone. simpl in Hone.
  destruct (List.find _ (product_options product)) as [created|] eqn:Hfind;
    simpl in Hone; [|done].
  injection Hone as <-. apply find_some in Hfind as [Hin Htitle].
  apply bool_decide_eq_true in Htitle.
  exists created. split; [by apply list_elem_of_In|]. by split.
Qed.

(** X25. A row to create a variant from is rejected when one of its parsed
    product options has a title that no option of the stored product has,
    or when it has parsed options and the product is not found: the [try]
    block throws before the variant service is called. *)
Theorem variant_with_unknown_option_is_rejected
    (variantOp : Row) (st : state W) (parsed : list elem) (variantOption : elem) :
  row_get "product.options" variantOp = Some (VArr parsed) ->
  variantOption ∈ parsed ->
  (forall product created,
      productRepo_findOne svc (row_get "product.handle" variantOp) (world st)
      = Some product ->
      created ∈ product_options product ->
      elem_prop "title" variantOption ≠ Some (option_title created)) ->
  createVariants_try svc variantOp st = None.
Proof.
  intros Hparsed Hin Hnone. unfold createVariants_try. rewrite Hparsed.
  set (product := productRepo_findOne svc _ _) in *.
  assert (Hids : option_ids product (Some (VArr parsed)) = None).
  { unfold option_ids. apply mapM_None_2, Exists_exists.
    exists variantOption. split; [done|].
    destruct product as [p|] eqn:Hp; simpl; [|done].
    rewrite find_None; [done|].
    intros created Hcreated. apply bool_decide_eq_false.
    intros Heq. by apply (Hnone p created). }
  by rewrite Hids.
Qed.

(** X26. A row to update a variant from is rejected when one of its parsed
    option values has a title for which the option repository finds no
    option. *)
Theorem variant_update_with_unknown_option_is_rejected
    (variantOp : Row) (st : state W) (parsed : list elem) (o : obj) :
  row_get "variant.options" variantOp = Some (VArr parsed) ->
  EObj o ∈ parsed ->
  productOptionRepo_findOne svc (prop "_title" o) (world st) = None ->
  updateVariants_try svc variantOp st = None.
Proof.
  intros Hparsed Hin Hnone. unfold updateVariants_try, prepareVariantOptions.
  rewrite Hparsed. cbn [truthy].
  assert (Hmap : mapM
            (fun o0 =>
               match o0 with
               | EStr _ => None
               | EObj o1 =>
                   found ← productOptionRepo_findOne svc (prop "_title" o1) (world st);
                   Some (EObj (set_prop "option_id" (option_id found) o1))
               end) parsed = None).
  { apply mapM_None_2, Exists_exists. exists (EObj o). split; [done|].
    by rewrite Hnone. }
  by rewrite Hmap.
Qed.

End VariantPhases.

Lemma option_ids_are_aligned_witness :
  ProductImport.option_ids (Some sized_product)
    (Some (VArr [EObj [("title", "Size")]]))
  = Some ["opt_size"]
  /\ Forall2
       (fun variantOption optionId =>
          exists created,
            created ∈ ProductImport.product_options sized_product
            /\ elem_prop "title" variantOption
               = Some (ProductImport.option_title created)
            /\ optionId = ProductImport.option_id created)
       [EObj [("title", "Size")]] ["opt_size"].
Proof.
  split; [reflexivity|].
  exact (option_ids_are_aligned sized_product [EObj [("title", "Size")]]
           ["opt_size"] eq_refl).
Defined.

Lemma colored_row_has_no_option :
  forall product created,
    ProductImport.productRepo_findOne sized_services
      (ProductImport.row_get "product.handle" colored_row)
      (ProductImport.world import_start)
    = Some product ->
    created ∈ ProductImport.product_options product ->
    elem_prop "title" (EObj [("title", "Color")])
    ≠ Some (ProductImport.option_title created).
Proof.
  intros product created [= <-] Hin. simpl in Hin.
  apply list_elem_of_singleton in Hin as ->. discriminate.
Qed.

Lemma variant_with_unknown_option_is_rejected_witness :
  ProductImport.row_get "product.options" colored_row
  = Some (VArr [EObj [("title", "Color")]])
  /\ EObj [("title", "Color")] ∈ [EObj [("title", "Color")]]
  /\ ProductImport.createVariants_try sized_services colored_row import_start = None.
Proof.
  assert (Hin : EObj [("title", "Color")] ∈ [EObj [("title", "Color")]])
    by (by left).
  split; [reflexivity|]. split; [exact Hin|].
  exact (variant_with_unknown_option_is_rejected sized_services colored_row
           import_start [EObj [("title", "Color")]] (EObj [("title", "Color")])
           eq_refl Hin colored_row_has_no_option).
Defined.

Lemma variant_update_with_unknown_option_is_rejected_witness :
  ProductImport.row_get "variant.options" colored_row
  = Some (VArr [EObj [("value", "Red"); ("_title", "Color")]])
  /\ EObj [("value", "Red"); ("_title", "Color")]
     ∈ [EObj [("value", "Red"); ("_title", "Color")]]
  /\ ProductImport.productOptionRepo_findOne sized_services
       (prop "_title" [("value", "Red"); ("_title", "Color")])
       (ProductImport.world import_start)
     = None
  /\ ProductImport.updateVariants_try sized_services colored_row import_start = None.
Proof.
  assert (Hin : EObj [("value", "Red"); ("_title", "Color")]
                ∈ [EObj [("value", "Red"); ("_title", "Color")]])
    by (by left).
  split; [reflexivity|]. split; [exact Hin|]. split; [reflexivity|].
  exact (variant_update_with_unknown_option_is_rejected sized_services colored_row
           import_start [EObj [("value", "Red"); ("_title", "Color")]]
           [("value", "Red"); ("_title", "Color")] eq_refl Hin eq_refl).
Defined.

(** ** Order of the batches *)

Section BatchOrder.

Import ProductImport.

Variable findOne : string -> option Region.
Variable shippingProfile : value.
Variable k : string.

Hypothesis k_not_prices : k ≠ "variant.prices".
Hypothesis k_not_profile : k ≠ "product.profile_id".

Lemma classify_rows_order (rows : list Row) (st st' : locals) :
  classify_rows findOne shippingProfile st rows = Ok st' ->
  map (row_get k) (variantsCreate (ops st'))
  = map (row_get k) (variantsCreate (ops st))
    ++ map (row_get k)
         (filter (fun row => truthy (row_get "variant.id" row) = false) rows)
  /\ map (row_get k) (variantsUpdate (ops st'))
     = map (row_get k) (variantsUpdate (ops st))
       ++ map (row_get k)
            (filter (fun row => truthy (row_get "variant.id" row) = true) rows).
Proof.
  unfold Row in *. revert st. induction rows as [|row rows IH]; intros st;
    cbn [classify_rows].
  - intros [= <-]. by rewrite !filter_nil, !app_nil_r.
  - destruct (classify_row findOne shippingProfile st row) as [st1|] eqn:Hrow;
      cbn [mbind result_bind]; [|done].
    intros Hrest. apply IH in Hrest as [Hc Hu]. rewrite Hc, Hu.
    apply classify_row_inv in Hrow as (row2 & Hget & Hvar & _).
    rewrite !filter_cons.
    destruct Hvar as [(-> & -> & Hid)|(-> & -> & Hid)]; rewrite Hid; simpl;
      rewrite ?map_app, <- ?app_assoc; simpl; by rewrite ?Hget.
Qed.

(** X27. The variant batches keep the rows in the order of the file: read at
    any key other than the resolved prices and the stamped profile, the
    variant-create batch is the sequence of the rows without a variant
    identifier and the variant-update batch the sequence of those with
    one. *)
Theorem variant_batches_keep_file_order (csvData : list Row) (ops : Instructions) :
  getImportInstructions findOne shippingProfile csvData = Ok ops ->
  map (row_get k) (variantsCreate ops)
  = map (row_get k)
      (filter (fun row => truthy (row_get "variant.id" row) = false) csvData)
  /\ map (row_get k) (variantsUpdate ops)
     = map (row_get k)
         (filter (fun row => truthy (row_get "variant.id" row) = true) csvData).
Proof.
  unfold getImportInstructions.
  destruct (classify_rows _ _ _ csvData) as [st|] eqn:Hrows; simpl; [|done].
  intros [= <-]. by apply classify_rows_order in Hrows.
Qed.

End BatchOrder.

Lemma variant_batches_keep_file_order_witness :
  "variant.sku" ≠ "variant.prices"
  /\ "variant.sku" ≠ "product.profile_id"
  /\ ProductImport.getImportInstructions sample_findOne sample_profile sample_csvData
     = Ok sample_ops
  /\ map (ProductImport.row_get "variant.sku") (ProductImport.variantsCreate sample_ops)
     = [Some (VStr "shirt-s"); Some (VStr "kit-1"); Some (VStr "shirt-m")]
  /\ map (ProductImport.row_get "variant.sku") (ProductImport.variantsCreate sample_ops)
     = map (ProductImport.row_get "variant.sku")
         (filter (fun row => truthy (ProductImport.row_get "variant.id" row) = false)
                 sample_csvData)
  /\ map (ProductImport.row_get "variant.sku") (ProductImport.variantsUpdate sample_ops)
     = map (ProductImport.row_get "variant.sku")
         (filter (fun row => truthy (ProductImport.row_get "variant.id" row) = true)
                 sample_csvData).
Proof.
  assert (H1 : "variant.sku" ≠ "variant.prices") by discriminate.
  assert (H2 : "variant.sku" ≠ "product.profile_id") by discriminate.
  split; [exact H1|]. split; [exact H2|].
  split; [exact sample_classification|]. split; [reflexivity|].
  exact (variant_batches_keep_file_order sample_findOne sample_profile "variant.sku"
           H1 H2 sample_csvData sample_ops sample_classification).
Defined.

(** ** Discovered price keys and their columns *)

Section PriceColumns.

Import ProductExport.




End PriceColumns.



(** ** What price resolution keeps *)

Section Resolution.

Import ProductImport.

Variable findOne : string -> option Region.

Lemma price_record_fields (p : elem) (record : obj) :
  price_record findOne p = Ok record ->
  prop "amount" record = elem_prop "amount" p
  /\ prop "regionName" record = None
  /\ match elem_prop "regionName" p with
     | Some name =>
         if truthy_str name
         then exists found, findOne name = Some found
                            /\ prop "region_id" record = Some (region_id found)
         else prop "currency_code" record = elem_prop "currency_code" p
     | None => prop "currency_code" record = elem_prop "currency_code" p
     end.
Proof.
  unfold price_record.
  destruct (elem_prop "regionName" p) as [name|];
    [destruct (truthy_str name); [destruct (findOne name) as [found|] eqn:Hfind|]|];
    destruct (elem_prop "amount" p) as [a|];
    destruct (elem_prop "currency_code" p) as [c|];
    intros Hrec; simplify_eq; simpl; eauto.
Qed.

(** X30. Price resolution keeps the entries in number and order, and of each
    entry the amount; an entry with a non-empty region name receives the
    identifier of the region the repository finds under that name, any
    other entry keeps its currency code; the region name itself is not
    carried over. *)
Theorem handleVariantPrices_resolves_each_entry (row row' : Row) :
  handleVariantPrices findOne row = Ok row' ->
  exists ps records,
    iterate (row_get "variant.prices" row) = Ok ps
    /\ row_get "variant.prices" row' = Some (VArr (map EObj records))
    /\ Forall2
         (fun p record =>
            prop "amount" record = elem_prop "amount" p
            /\ prop "regionName" record = None
            /\ match elem_prop "regionName" p with
               | Some name =>
                   if truthy_str name
                   then exists found,
                          findOne name = Some found
                          /\ prop "region_id" record = Some (region_id found)
                   else prop "currency_code" record = elem_prop "currency_code" p
               | None => prop "currency_code" record = elem_prop "currency_code" p
               end)
         ps records.
Proof.
  unfold handleVariantPrices. intros Hrow.
  destruct (iterate (row_get "variant.prices" row)) as [ps|] eqn:Hps;
    simpl in Hrow; [|done].
  destruct (price_records findOne ps) as [records|] eqn:Hrec;
    simpl in Hrow; [|done].
  injection Hrow as <-. exists ps, records.
  split; [done|]. split; [apply row_get_set_eq|].
  clear Hps. revert records Hrec.
  induction ps as [|p ps IH]; simpl; intros records Hrec.
  - injection Hrec as <-. constructor.
  - destruct (price_record findOne p) as [record|] eqn:Hp; simpl in Hrec; [|done].
    destruct (price_records findOne ps) as [prices|] eqn:Hps; simpl in Hrec; [|done].
    injection Hrec as <-.
    constructor; [by apply price_record_fields | by apply IH].
Qed.

End Resolution.

Lemma handleVariantPrices_resolves_each_entry_witness :
  ProductImport.handleVariantPrices sample_findOne priced_row = Ok priced_row_resolved
  /\ exists ps records,
       ProductImport.iterate (ProductImport.row_get "variant.prices" priced_row) = Ok ps
       /\ ProductImport.row_get "variant.prices" priced_row_resolved
          = Some (VArr (map EObj records))
       /\ Forall2
            (fun p record =>
               prop "amount" record = elem_prop "amount" p
               /\ prop "regionName" record = None
               /\ match elem_prop "regionName" p with
                  | Some name =>
                      if truthy_str name
                      then exists found,
                             sample_findOne name = Some found
                             /\ prop "region_id" record
                                = Some (ProductImport.region_id found)
                      else prop "currency_code" record = elem_prop "currency_code" p
                  | None => prop "currency_code" record = elem_prop "currency_code" p
                  end)
            ps records.
Proof.
  split; [reflexivity|].
  exact (handleVariantPrices_resolves_each_entry sample_findOne priced_row
           priced_row_resolved eq_refl).
Defined.
